(** * TaskDetailModal: the edit buffer of a task and the handlers that mutate it

    A shallow embedding of [src/components/TaskDetailModal.tsx].  The
    component keeps a local copy ([localDetails]) of the task's
    [extendedDetails], mutates it through a dozen handlers and hands it to
    [onUpdateTask] from a debounced effect.

    Conventions of the embedding.
    - A JS [number] used as a pixel coordinate or a byte count is a [Z]; an
      array index is a [nat].
    - An optional property ([p?: T]) is an [option T]; [None] stands for both
      "absent" and [undefined], which the component never tells apart.
    - The types of [../types] are taken as the component uses them: the
      properties it reads or writes are record fields; whatever else an
      object carries is kept in a [rest] map from property name to value, so
      that object spread ([{...a, ...b}]) can be followed on every property.
    - A handler is a computation over the component state that logs the calls
      it makes to the outside ([confirm], [alert], the AI service, ...).  An
      [async] handler is cut at its [await]: one computation up to it, one
      from it on, which may run in a later state.
    - The handlers guarded by [canEdit] hang on controls that the render
      offers in edit mode only ([{canEdit && <button ...>}],
      [disabled={!canEdit}], [draggable={canEdit}]); the properties of what
      they do are stated for edit mode, the guard itself in
      [read_only_buffer_is_frozen]. *)

From stdpp Require Import base strings list gmap pretty.
From Stdlib Require Import ZArith.

(** ** Types imported from [../types] *)

(** The types the component only passes around. *)
Class Schema := {
  JsVal : Type;      (* value of a property the component never names *)
  TaskDecision : Type;  (* [Decision], handed to and received from DecisionModal;
                           renamed, stdpp has a [Decision] of its own *)
  SlideDeck : Type;  (* [SlideDeck], produced by the AI service and the editor *)
}.

Module Position.
Record t := { x : Z; y : Z }.
End Position.

Module CanvasSize.
Record t := { width : Z; height : Z }.
End CanvasSize.

Module Attachment.
Record t := { id : string; name : string; type : string; dataUrl : string }.
End Attachment.

(** [Partial<ActionItem>]: [None] is "key not given". *)
Module ActionItemUpdate.
Record t `{Schema} := {
  id : option string;
  text : option string;
  completed : option bool;
  completedDate : option (option string);
  rest : gmap string JsVal;
}.
End ActionItemUpdate.

Module ActionItem.
Record t `{Schema} := {
  id : string;
  text : string;
  completed : bool;
  completedDate : option string;
  rest : gmap string JsVal;
}.

(** [{ ...ai, ...updates }] *)
Definition spread `{Schema} (ai : t) (updates : ActionItemUpdate.t) : t :=
  {| id := default (id ai) (ActionItemUpdate.id updates);
     text := default (text ai) (ActionItemUpdate.text updates);
     completed := default (completed ai) (ActionItemUpdate.completed updates);
     completedDate :=
       default (completedDate ai) (ActionItemUpdate.completedDate updates);
     rest := ActionItemUpdate.rest updates ∪ rest ai |}.
End ActionItem.

(** [Partial<SubStep>]. *)
Module SubStepUpdate.
Record t `{Schema} := {
  id : option string;
  text : option string;
  notes : option (option string);
  position : option (option Position.t);
  actionItems : option (option (list ActionItem.t));
  attachments : option (option (list Attachment.t));
  rest : gmap string JsVal;
}.

(** [{ position: p }] *)
Definition ofPosition `{Schema} (p : Position.t) : t :=
  {| id := None; text := None; notes := None; position := Some (Some p);
     actionItems := None; attachments := None; rest := ∅ |}.

(** [{ text: s }] *)
Definition ofText `{Schema} (s : string) : t :=
  {| id := None; text := Some s; notes := None; position := None;
     actionItems := None; attachments := None; rest := ∅ |}.

(** [{ notes: s }] *)
Definition ofNotes `{Schema} (s : string) : t :=
  {| id := None; text := None; notes := Some (Some s); position := None;
     actionItems := None; attachments := None; rest := ∅ |}.
End SubStepUpdate.

Module SubStep.
Record t `{Schema} := {
  id : string;
  text : string;
  notes : option string;
  position : option Position.t;
  actionItems : option (list ActionItem.t);
  attachments : option (list Attachment.t);
  rest : gmap string JsVal;
}.

(** [{ ...ss, ...updates }] *)
Definition spread `{Schema} (ss : t) (updates : SubStepUpdate.t) : t :=
  {| id := default (id ss) (SubStepUpdate.id updates);
     text := default (text ss) (SubStepUpdate.text updates);
     notes := default (notes ss) (SubStepUpdate.notes updates);
     position := default (position ss) (SubStepUpdate.position updates);
     actionItems := default (actionItems ss) (SubStepUpdate.actionItems updates);
     attachments := default (attachments ss) (SubStepUpdate.attachments updates);
     rest := SubStepUpdate.rest updates ∪ rest ss |}.

(** [{ ...ss, actionItems: items }], also the outcome of assigning
    [ss.actionItems] in place. *)
Definition withActionItems `{Schema} (ss : t) (items : list ActionItem.t) : t :=
  {| id := id ss; text := text ss; notes := notes ss; position := position ss;
     actionItems := Some items;
     attachments := attachments ss; rest := rest ss |}.
End SubStep.

(** [Partial<EditableExtendedTaskDetails>]. *)
Module DetailsUpdate.
Record t `{Schema} := {
  subSteps : option (list SubStep.t);
  resources : option string;
  responsible : option string;
  notes : option string;
  attachments : option (option (list Attachment.t));
  decisions : option (option (list TaskDecision));
  subStepCanvasSize : option (option CanvasSize.t);
  reportDeck : option (option SlideDeck);
  rest : gmap string JsVal;
}.

(** [{ subSteps: l }] *)
Definition ofSubSteps `{Schema} (l : list SubStep.t) : t :=
  {| subSteps := Some l; resources := None; responsible := None; notes := None;
     attachments := None; decisions := None; subStepCanvasSize := None;
     reportDeck := None; rest := ∅ |}.

(** [{ attachments: l }] *)
Definition ofAttachments `{Schema} (l : list Attachment.t) : t :=
  {| subSteps := None; resources := None; responsible := None; notes := None;
     attachments := Some (Some l); decisions := None;
     subStepCanvasSize := None; reportDeck := None; rest := ∅ |}.

(** [{ reportDeck: deck }] *)
Definition ofReportDeck `{Schema} (deck : SlideDeck) : t :=
  {| subSteps := None; resources := None; responsible := None; notes := None;
     attachments := None; decisions := None; subStepCanvasSize := None;
     reportDeck := Some (Some deck); rest := ∅ |}.
End DetailsUpdate.

(** [EditableExtendedTaskDetails]. *)
Module Details.
Record t `{Schema} := {
  subSteps : list SubStep.t;
  resources : string;
  responsible : string;
  notes : string;
  attachments : option (list Attachment.t);
  decisions : option (list TaskDecision);
  subStepCanvasSize : option CanvasSize.t;
  reportDeck : option SlideDeck;
  rest : gmap string JsVal;
}.

(** [{ ...prev, ...updates }] *)
Definition spread `{Schema} (prev : t) (updates : DetailsUpdate.t) : t :=
  {| subSteps := default (subSteps prev) (DetailsUpdate.subSteps updates);
     resources := default (resources prev) (DetailsUpdate.resources updates);
     responsible := default (responsible prev) (DetailsUpdate.responsible updates);
     notes := default (notes prev) (DetailsUpdate.notes updates);
     attachments := default (attachments prev) (DetailsUpdate.attachments updates);
     decisions := default (decisions prev) (DetailsUpdate.decisions updates);
     subStepCanvasSize :=
       default (subStepCanvasSize prev) (DetailsUpdate.subStepCanvasSize updates);
     reportDeck := default (reportDeck prev) (DetailsUpdate.reportDeck updates);
     rest := DetailsUpdate.rest updates ∪ rest prev |}.
End Details.

Module ProjectTask.
Record t `{Schema} := {
  id : string;
  title : string;
  description : string;
  extendedDetails : option Details.t;
}.
End ProjectTask.

(** ** Values the handlers receive *)

(** An element of the [proposals] state and of [additions.newSubSteps]. *)
Module Proposal.
Record t := { title : string; description : string }.
End Proposal.

(** An element of [additions.newActionItems]. *)
Module NewActionItem.
Record t := { targetSubStepId : string; title : string }.
End NewActionItem.

Module Additions.
Record t := {
  newSubSteps : list Proposal.t;
  newActionItems : list NewActionItem.t;
}.
End Additions.

(** The part of a DOM [File] the component reads. *)
Module File.
Record t := { name : string; type : string; size : Z }.
End File.

(** [getBoundingClientRect()] of the canvas. *)
Module Rect.
Record t := { left : Z; top : Z }.
End Rect.

(** The part of a [React.DragEvent] the drop handler reads. *)
Module DragEvent.
Record t := { clientX : Z; clientY : Z }.
End DragEvent.

(** What a [catch] clause can receive: [err instanceof Error] or not. *)
Inductive Thrown :=
  | ErrorObject (message : string)
  | NonError.

(** How an awaited promise settles. *)
Inductive Settled (A : Type) :=
  | Fulfilled (value : A)
  | Rejected (err : Thrown).
Arguments Fulfilled {A} _.
Arguments Rejected {A} _.

(** The props of the component ([onClose] plays no part here;
    [onUpdateTask] and [generateUniqueId] are in [Effect] and [Host]). *)
Module Props.
Record t `{Schema} := {
  task : ProjectTask.t;
  projectGoal : string;
  targetDate : string;
  canEdit : bool;
}.
End Props.

(** ** The component's state and its surroundings *)

(** The [useState] cells that the handlers below read or write.  The cells
    they leave alone ([activeTab], [isMaximized], [mousePos], the flags of the
    other modals) are not carried. *)
Module ModalState.
Record t `{Schema} := {
  isGeneratingProposals : bool;
  proposalError : option string;
  showProposalReview : bool;
  proposals : list Proposal.t;
  isSlideEditorOpen : bool;
  isGeneratingSlides : bool;
  slideError : option string;
  draggedSubStep : option string;
  localDetails : Details.t;
}.
End ModalState.

(** A call that leaves the component. *)
Inductive Effect `{Schema} :=
  | OnUpdateTask (taskId : string) (updates : Details.t)
  | GenerateStepProposals (task : ProjectTask.t)
  | GenerateInitialSlideDeck (task : ProjectTask.t) (projectGoal : string)
  | Confirm (message : string)
  | Alert (message : string)
  | ReadAsDataURL (file : File.t)
  | ClearFileInput                       (* [event.target.value = ''] *)
  | PreventDefault                       (* [event.preventDefault()] *)
  | SetEffectAllowed (effect : string).  (* [event.dataTransfer.effectAllowed = ...] *)

(** What the component is given to run with: the [generateUniqueId] prop, an
    impure function whose hidden state is [IdGen], and [JSON.stringify] on
    task details. *)
Class Host `{Schema} := {
  IdGen : Type;
  generateUniqueId : string → IdGen → string * IdGen;
  JSON_stringify : Details.t → string;
}.

Module World.
Record t `{Host} := {
  ui : ModalState.t;
  idGen : IdGen;
}.
End World.

(** A handler: from a world to a result, the next world and the calls made. *)
Record M `{Host} (A : Type) : Type :=
  Handler { run : World.t → (A * World.t) * list Effect }.
Arguments Handler {_ _ A} _.
Arguments run {_ _ A} _ _.

#[global] Instance M_ret `{Host} : MRet M :=
  λ A a, Handler (λ w, (a, w, [])).
#[global] Instance M_bind `{Host} : MBind M :=
  λ A B f m, Handler (λ w,
    let '(a, w1, calls1) := run m w in
    let '(b, w2, calls2) := run (f a) w1 in
    (b, w2, calls1 ++ calls2)).

(** The three observations of a run. *)
Definition result `{Host} {A} (m : M A) (w : World.t) : A := (run m w).1.1.
Definition after `{Host} {A} (m : M A) (w : World.t) : World.t := (run m w).1.2.
Definition calls `{Host} {A} (m : M A) (w : World.t) : list Effect := (run m w).2.

Section Primitives.
Context `{Host}.

Definition call (e : Effect) : M unit := Handler (λ w, (tt, w, [e])).

Definition modify (f : ModalState.t → ModalState.t) : M unit :=
  Handler (λ w, (tt, {| World.ui := f (World.ui w); World.idGen := World.idGen w |}, [])).

(** The value a handler's closure holds for a state cell.  A handler runs
    against the render that created it, so this is the cell's value when the
    handler starts. *)
Definition read {A} (cell : ModalState.t → A) : M A :=
  Handler (λ w, (cell (World.ui w), w, [])).

(** [generateUniqueId(prefix)] *)
Definition generateId (prefix : string) : M string :=
  Handler (λ w,
    let '(id, g) := generateUniqueId prefix (World.idGen w) in
    (id, {| World.ui := World.ui w; World.idGen := g |}, [])).

(** [confirm(message)], answered by the user with [answer]. *)
Definition confirm (message : string) (answer : bool) : M bool :=
  call (Confirm message) ;; mret answer.

Definition setIsGeneratingProposals (v : bool) : M unit :=
  modify (λ s,
    {| ModalState.isGeneratingProposals := v;
       ModalState.proposalError := ModalState.proposalError s;
       ModalState.showProposalReview := ModalState.showProposalReview s;
       ModalState.proposals := ModalState.proposals s;
       ModalState.isSlideEditorOpen := ModalState.isSlideEditorOpen s;
       ModalState.isGeneratingSlides := ModalState.isGeneratingSlides s;
       ModalState.slideError := ModalState.slideError s;
       ModalState.draggedSubStep := ModalState.draggedSubStep s;
       ModalState.localDetails := ModalState.localDetails s |}).

Definition setProposalError (v : option string) : M unit :=
  modify (λ s,
    {| ModalState.isGeneratingProposals := ModalState.isGeneratingProposals s;
       ModalState.proposalError := v;
       ModalState.showProposalReview := ModalState.showProposalReview s;
       ModalState.proposals := ModalState.proposals s;
       ModalState.isSlideEditorOpen := ModalState.isSlideEditorOpen s;
       ModalState.isGeneratingSlides := ModalState.isGeneratingSlides s;
       ModalState.slideError := ModalState.slideError s;
       ModalState.draggedSubStep := ModalState.draggedSubStep s;
       ModalState.localDetails := ModalState.localDetails s |}).

Definition setShowProposalReview (v : bool) : M unit :=
  modify (λ s,
    {| ModalState.isGeneratingProposals := ModalState.isGeneratingProposals s;
       ModalState.proposalError := ModalState.proposalError s;
       ModalState.showProposalReview := v;
       ModalState.proposals := ModalState.proposals s;
       ModalState.isSlideEditorOpen := ModalState.isSlideEditorOpen s;
       ModalState.isGeneratingSlides := ModalState.isGeneratingSlides s;
       ModalState.slideError := ModalState.slideError s;
       ModalState.draggedSubStep := ModalState.draggedSubStep s;
       ModalState.localDetails := ModalState.localDetails s |}).

Definition setProposals (v : list Proposal.t) : M unit :=
  modify (λ s,
    {| ModalState.isGeneratingProposals := ModalState.isGeneratingProposals s;
       ModalState.proposalError := ModalState.proposalError s;
       ModalState.showProposalReview := ModalState.showProposalReview s;
       ModalState.proposals := v;
       ModalState.isSlideEditorOpen := ModalState.isSlideEditorOpen s;
       ModalState.isGeneratingSlides := ModalState.isGeneratingSlides s;
       ModalState.slideError := ModalState.slideError s;
       ModalState.draggedSubStep := ModalState.draggedSubStep s;
       ModalState.localDetails := ModalState.localDetails s |}).

Definition setIsSlideEditorOpen (v : bool) : M unit :=
  modify (λ s,
    {| ModalState.isGeneratingProposals := ModalState.isGeneratingProposals s;
       ModalState.proposalError := ModalState.proposalError s;
       ModalState.showProposalReview := ModalState.showProposalReview s;
       ModalState.proposals := ModalState.proposals s;
       ModalState.isSlideEditorOpen := v;
       ModalState.isGeneratingSlides := ModalState.isGeneratingSlides s;
       ModalState.slideError := ModalState.slideError s;
       ModalState.draggedSubStep := ModalState.draggedSubStep s;
       ModalState.localDetails := ModalState.localDetails s |}).

Definition setIsGeneratingSlides (v : bool) : M unit :=
  modify (λ s,
    {| ModalState.isGeneratingProposals := ModalState.isGeneratingProposals s;
       ModalState.proposalError := ModalState.proposalError s;
       ModalState.showProposalReview := ModalState.showProposalReview s;
       ModalState.proposals := ModalState.proposals s;
       ModalState.isSlideEditorOpen := ModalState.isSlideEditorOpen s;
       ModalState.isGeneratingSlides := v;
       ModalState.slideError := ModalState.slideError s;
       ModalState.draggedSubStep := ModalState.draggedSubStep s;
       ModalState.localDetails := ModalState.localDetails s |}).

Definition setSlideError (v : option string) : M unit :=
  modify (λ s,
    {| ModalState.isGeneratingProposals := ModalState.isGeneratingProposals s;
       ModalState.proposalError := ModalState.proposalError s;
       ModalState.showProposalReview := ModalState.showProposalReview s;
       ModalState.proposals := ModalState.proposals s;
       ModalState.isSlideEditorOpen := ModalState.isSlideEditorOpen s;
       ModalState.isGeneratingSlides := ModalState.isGeneratingSlides s;
       ModalState.slideError := v;
       ModalState.draggedSubStep := ModalState.draggedSubStep s;
       ModalState.localDetails := ModalState.localDetails s |}).

Definition setDraggedSubStep (v : option string) : M unit :=
  modify (λ s,
    {| ModalState.isGeneratingProposals := ModalState.isGeneratingProposals s;
       ModalState.proposalError := ModalState.proposalError s;
       ModalState.showProposalReview := ModalState.showProposalReview s;
       ModalState.proposals := ModalState.proposals s;
       ModalState.isSlideEditorOpen := ModalState.isSlideEditorOpen s;
       ModalState.isGeneratingSlides := ModalState.isGeneratingSlides s;
       ModalState.slideError := ModalState.slideError s;
       ModalState.draggedSubStep := v;
       ModalState.localDetails := ModalState.localDetails s |}).

(** [setLocalDetails(prev => f(prev))] *)
Definition setLocalDetails (f : Details.t → Details.t) : M unit :=
  modify (λ s,
    {| ModalState.isGeneratingProposals := ModalState.isGeneratingProposals s;
       ModalState.proposalError := ModalState.proposalError s;
       ModalState.showProposalReview := ModalState.showProposalReview s;
       ModalState.proposals := ModalState.proposals s;
       ModalState.isSlideEditorOpen := ModalState.isSlideEditorOpen s;
       ModalState.isGeneratingSlides := ModalState.isGeneratingSlides s;
       ModalState.slideError := ModalState.slideError s;
       ModalState.draggedSubStep := ModalState.draggedSubStep s;
       ModalState.localDetails := f (ModalState.localDetails s) |}).

(** [updateLocalDetails]: merge a partial object into the buffer. *)
Definition updateLocalDetails (updates : DetailsUpdate.t) : M unit :=
  setLocalDetails (λ prev, Details.spread prev updates).

(** [array.map((a, index) => ...)] with a body that has effects. *)
Fixpoint mapWithIndex {A B} (f : A → nat → M B) (index : nat) (l : list A)
    : M (list B) :=
  match l with
  | [] => mret []
  | a :: l =>
      b ← f a index;
      bs ← mapWithIndex f (S index) l;
      mret (b :: bs)
  end.

(** [array.forEach(a => ...)] with a body that updates a captured variable. *)
Fixpoint forEach {A S} (body : S → A → M S) (l : list A) (captured : S) : M S :=
  match l with
  | [] => mret captured
  | a :: l => captured ← body captured a; forEach body l captured
  end.

End Primitives.

(** ** The component *)

(** [task.extendedDetails || { ...defaults }] *)
Definition defaultDetails `{Schema} : Details.t :=
  {| Details.subSteps := [];
     Details.resources := "";
     Details.responsible := "";
     Details.notes := "";
     Details.attachments := Some [];
     Details.decisions := Some [];
     Details.subStepCanvasSize :=
       Some {| CanvasSize.width := 1200; CanvasSize.height := 800 |};
     Details.reportDeck := None;
     Details.rest := ∅ |}.

Definition extendedDetails `{Schema} (task : ProjectTask.t) : Details.t :=
  match ProjectTask.extendedDetails task with
  | Some details => details
  | None => defaultDetails
  end.

(** The state of the first render: every [useState] with its initial value. *)
Definition initialState `{Schema} (task : ProjectTask.t) : ModalState.t :=
  {| ModalState.isGeneratingProposals := false;
     ModalState.proposalError := None;
     ModalState.showProposalReview := false;
     ModalState.proposals := [];
     ModalState.isSlideEditorOpen := false;
     ModalState.isGeneratingSlides := false;
     ModalState.slideError := None;
     ModalState.draggedSubStep := None;
     ModalState.localDetails := extendedDetails task |}.

(** [err instanceof Error ? err.message : fallback] *)
Definition errorMessage (err : Thrown) (fallback : string) : string :=
  match err with
  | ErrorObject message => message
  | NonError => fallback
  end.

(** Truthiness of a [string | null]. *)
Definition truthy (s : option string) : bool :=
  match s with
  | Some s => negb (bool_decide (s = ""))
  | None => false
  end.

Definition MAX_FILE_SIZE_MB : Z := 5.
Definition MAX_FILE_SIZE_BYTES : Z := MAX_FILE_SIZE_MB * 1024 * 1024.

(** What the [reader.onload] closure of [handleAttachmentChange] holds on to. *)
Module PendingRead.
Record t := {
  file : File.t;
  attachments : option (list Attachment.t);  (* [localDetails.attachments] *)
}.
End PendingRead.

(** An entry of [flattenedActionItems]. *)
Module FlatItem.
Record t `{Schema} := { actionItem : ActionItem.t; subStep : SubStep.t }.
End FlatItem.

(** *** The autosave effect *)

Section Autosave.
Context `{Host}.

Definition saveChanges (taskId : string) (localDetails : Details.t) : list Effect :=
  [OnUpdateTask taskId localDetails].

(** The callback given to [setTimeout], with the values its closure holds. *)
Definition autosaveTimeout (taskId : string) (localDetails extended : Details.t)
    : list Effect :=
  if bool_decide (JSON_stringify localDetails ≠ JSON_stringify extended)
  then saveChanges taskId localDetails
  else [].

Definition AUTOSAVE_DELAY : nat := 1000.

(** A timer armed by the effect: the milliseconds left and the closure. *)
Record Timer := {
  remaining : nat;
  timerTaskId : string;
  timerLocal : Details.t;
  timerExtended : Details.t;
}.

(** The effect body: runs after a render in which [localDetails],
    [extendedDetails] or [saveChanges] changed; the cleanup of the previous
    run has cleared the previous timer, so at most one timer is armed. *)
Definition autosaveEffect (task : ProjectTask.t) (localDetails : Details.t)
    (previous : option Timer) : option Timer :=
  Some {| remaining := AUTOSAVE_DELAY;
          timerTaskId := ProjectTask.id task;
          timerLocal := localDetails;
          timerExtended := extendedDetails task |}.

(** [ms] milliseconds pass without such a render. *)
Definition elapse (ms : nat) (timer : option Timer) : option Timer * list Effect :=
  match timer with
  | None => (None, [])
  | Some t =>
      if bool_decide (remaining t ≤ ms)
      then (None, autosaveTimeout (timerTaskId t) (timerLocal t) (timerExtended t))
      else (Some {| remaining := remaining t - ms;
                    timerTaskId := timerTaskId t;
                    timerLocal := timerLocal t;
                    timerExtended := timerExtended t |}, [])
  end.

End Autosave.

(** *** The handlers *)

Section Component.
Context `{Host}.
Variable props : Props.t.

Abbreviation task := (Props.task props).
Abbreviation canEdit := (Props.canEdit props).

(** [handleGenerateProposals], up to the [await]: answers whether it is now
    waiting for [generateStepProposals]. *)
Definition handleGenerateProposals : M bool :=
  if negb canEdit then mret false else
  setIsGeneratingProposals true ;;
  setProposalError None ;;
  call (GenerateStepProposals task) ;;
  mret true.

(** [handleGenerateProposals], from the [await] on: [try] continues or
    [catch] runs, then [finally]. *)
Definition handleGenerateProposals_resume (settled : Settled (list Proposal.t))
    : M unit :=
  match settled with
  | Fulfilled generatedProposals =>
      setProposals generatedProposals ;;
      setShowProposalReview true
  | Rejected err =>
      setProposalError (Some (errorMessage err "ステップ提案の生成に失敗しました。"))
  end ;;
  setIsGeneratingProposals false.

Definition newSubStepOfProposal (proposal : Proposal.t) (index : nat) : M SubStep.t :=
  id ← generateId "substep";
  mret {| SubStep.id := id;
          SubStep.text := Proposal.title proposal;
          SubStep.notes := Some (Proposal.description proposal);
          SubStep.position :=
            Some {| Position.x := 50 + (Z.of_nat index `rem` 3) * 300;
                    Position.y := 50 + (Z.of_nat index `div` 3) * 200 |};
          SubStep.actionItems := Some [];
          SubStep.attachments := Some [];
          SubStep.rest := ∅ |}.

(** The body of [additions.newActionItems.forEach]: [find] the first
    sub-step with the target id and push onto its [actionItems].  The push
    mutates the found object in place; [updatedSubSteps] holds that object at
    the index where it was found. *)
Definition pushNewActionItem (updatedSubSteps : list SubStep.t)
    (item : NewActionItem.t) : M (list SubStep.t) :=
  match list_find (λ ss, SubStep.id ss = NewActionItem.targetSubStepId item)
                  updatedSubSteps with
  | Some (index, targetSubStep) =>
      id ← generateId "action";
      let actionItem :=
        {| ActionItem.id := id;
           ActionItem.text := NewActionItem.title item;
           ActionItem.completed := false;
           ActionItem.completedDate := None;
           ActionItem.rest := ∅ |} in
      mret (<[index :=
               SubStep.withActionItems targetSubStep
                 (default [] (SubStep.actionItems targetSubStep) ++ [actionItem])]>
            updatedSubSteps)
  | None => mret updatedSubSteps
  end.

Definition handleProposalConfirm (additions : Additions.t) : M unit :=
  localDetails ← read ModalState.localDetails;
  newSubSteps ← mapWithIndex newSubStepOfProposal 0 (Additions.newSubSteps additions);
  let updatedSubSteps := Details.subSteps localDetails ++ newSubSteps in
  updatedSubSteps ←
    forEach pushNewActionItem (Additions.newActionItems additions) updatedSubSteps;
  updateLocalDetails (DetailsUpdate.ofSubSteps updatedSubSteps) ;;
  setShowProposalReview false.

(** [handleGenerateSlides], up to the [await] or to the early [return]:
    answers whether it is now waiting for [generateInitialSlideDeck]. *)
Definition handleGenerateSlides : M bool :=
  localDetails ← read ModalState.localDetails;
  if bool_decide (is_Some (Details.reportDeck localDetails)) then
    setIsSlideEditorOpen true ;;
    mret false
  else
    setIsGeneratingSlides true ;;
    setSlideError None ;;
    call (GenerateInitialSlideDeck task (Props.projectGoal props)) ;;
    mret true.

Definition handleGenerateSlides_resume (settled : Settled SlideDeck) : M unit :=
  match settled with
  | Fulfilled deck =>
      updateLocalDetails (DetailsUpdate.ofReportDeck deck) ;;
      setIsSlideEditorOpen true
  | Rejected err =>
      setSlideError (Some (errorMessage err "スライドの生成に失敗しました。"))
  end ;;
  setIsGeneratingSlides false.

(** The "slides" button: [onClick={handleGenerateSlides}] with
    [disabled={isGeneratingSlides}]. *)
Definition clickGenerateSlides : M bool :=
  isGeneratingSlides ← read ModalState.isGeneratingSlides;
  if (isGeneratingSlides : bool) then mret false else handleGenerateSlides.


(** SubStep handlers *)

Definition handleAddSubStep : M unit :=
  if negb canEdit then mret tt else
  id ← generateId "substep";
  let newSubStep :=
    {| SubStep.id := id;
       SubStep.text := "新しいサブステップ";
       SubStep.notes := Some "";
       SubStep.position := Some {| Position.x := 50; Position.y := 50 |};
       SubStep.actionItems := Some [];
       SubStep.attachments := Some [];
       SubStep.rest := ∅ |} in
  localDetails ← read ModalState.localDetails;
  updateLocalDetails
    (DetailsUpdate.ofSubSteps (Details.subSteps localDetails ++ [newSubStep])).

Definition handleUpdateSubStep (subStepId : string) (updates : SubStepUpdate.t)
    : M unit :=
  if negb canEdit then mret tt else
  localDetails ← read ModalState.localDetails;
  let updatedSubSteps :=
    (λ ss, if bool_decide (SubStep.id ss = subStepId)
           then SubStep.spread ss updates else ss)
    <$> Details.subSteps localDetails in
  updateLocalDetails (DetailsUpdate.ofSubSteps updatedSubSteps).

(** [answer] is what the user answers if [confirm] is reached. *)
Definition handleRemoveSubStep (subStepId : string) (answer : bool) : M unit :=
  if negb canEdit then mret tt else
  confirmed ← confirm "このサブステップを削除しますか？" answer;
  if (confirmed : bool) then
    localDetails ← read ModalState.localDetails;
    let updatedSubSteps :=
      filter (λ ss, SubStep.id ss ≠ subStepId) (Details.subSteps localDetails) in
    updateLocalDetails (DetailsUpdate.ofSubSteps updatedSubSteps)
  else mret tt.

(** Action Item handlers *)

Definition handleAddActionItem (subStepId : string) : M unit :=
  if negb canEdit then mret tt else
  id ← generateId "action";
  let newActionItem :=
    {| ActionItem.id := id;
       ActionItem.text := "新しいアクションアイテム";
       ActionItem.completed := false;
       ActionItem.completedDate := None;
       ActionItem.rest := ∅ |} in
  localDetails ← read ModalState.localDetails;
  let updatedSubSteps :=
    (λ ss, if bool_decide (SubStep.id ss = subStepId)
           then SubStep.withActionItems ss
                  (default [] (SubStep.actionItems ss) ++ [newActionItem])
           else ss)
    <$> Details.subSteps localDetails in
  updateLocalDetails (DetailsUpdate.ofSubSteps updatedSubSteps).

Definition handleUpdateActionItem (subStepId actionItemId : string)
    (updates : ActionItemUpdate.t) : M unit :=
  if negb canEdit then mret tt else
  localDetails ← read ModalState.localDetails;
  let updatedSubSteps :=
    (λ ss, if bool_decide (SubStep.id ss = subStepId)
           then SubStep.withActionItems ss
                  (default []
                     (fmap (M := list)
                        (λ ai, if bool_decide (ActionItem.id ai = actionItemId)
                               then ActionItem.spread ai updates else ai)
                      <$> SubStep.actionItems ss))
           else ss)
    <$> Details.subSteps localDetails in
  updateLocalDetails (DetailsUpdate.ofSubSteps updatedSubSteps).

Definition handleRemoveActionItem (subStepId actionItemId : string) (answer : bool)
    : M unit :=
  if negb canEdit then mret tt else
  confirmed ← confirm "このアクションアイテムを削除しますか？" answer;
  if (confirmed : bool) then
    localDetails ← read ModalState.localDetails;
    let updatedSubSteps :=
      (λ ss, if bool_decide (SubStep.id ss = subStepId)
             then SubStep.withActionItems ss
                    (default []
                       (filter (λ ai, ActionItem.id ai ≠ actionItemId)
                        <$> SubStep.actionItems ss))
             else ss)
      <$> Details.subSteps localDetails in
    updateLocalDetails (DetailsUpdate.ofSubSteps updatedSubSteps)
  else mret tt.

(** File handling *)

(** [handleAttachmentChange]; [selected] is [event.target.files?.[0]].
    Answers what the [reader.onload] closure holds when a read was started. *)
Definition handleAttachmentChange (selected : option File.t)
    : M (option PendingRead.t) :=
  if negb canEdit then mret None else
  match selected with
  | None => mret None
  | Some file =>
      if bool_decide (File.size file > MAX_FILE_SIZE_BYTES)%Z then
        call (Alert "ファイルサイズが大きすぎます。5MB未満のファイルを選択してください。") ;;
        call ClearFileInput ;;
        mret None
      else
        localDetails ← read ModalState.localDetails;
        call (ReadAsDataURL file) ;;
        call ClearFileInput ;;
        mret (Some {| PendingRead.file := file;
                      PendingRead.attachments := Details.attachments localDetails |})
  end.

(** [reader.onload]; [loaded] is [e.target?.result] when it is a string. *)
Definition reader_onload (pending : PendingRead.t) (loaded : option string) : M unit :=
  match loaded with
  | Some dataUrl =>
      id ← generateId "attach";
      let newAttachment :=
        {| Attachment.id := id;
           Attachment.name := File.name (PendingRead.file pending);
           Attachment.type := File.type (PendingRead.file pending);
           Attachment.dataUrl := dataUrl |} in
      updateLocalDetails
        (DetailsUpdate.ofAttachments
           (default [] (PendingRead.attachments pending) ++ [newAttachment]))
  | None => mret tt
  end.

Definition handleRemoveAttachment (attachmentId : string) : M unit :=
  if negb canEdit then mret tt else
  localDetails ← read ModalState.localDetails;
  updateLocalDetails
    (DetailsUpdate.ofAttachments
       (default []
          (filter (λ a, Attachment.id a ≠ attachmentId)
           <$> Details.attachments localDetails))).

(** Drag and drop handlers *)

Definition handleSubStepDragStart (subStepId : string) : M unit :=
  if negb canEdit then mret tt else
  setDraggedSubStep (Some subStepId) ;;
  call (SetEffectAllowed "move").

(** [handleCanvasDrop]; [canvas] is the bounding rectangle of
    [canvasRef.current] when the ref is set. *)
Definition handleCanvasDrop (canvas : option Rect.t) (event : DragEvent.t) : M unit :=
  draggedSubStep ← read ModalState.draggedSubStep;
  if negb canEdit || negb (truthy draggedSubStep) then mret tt else
  match draggedSubStep, canvas with
  | Some draggedSubStep, Some rect =>
      call PreventDefault ;;
      let newPosition :=
        {| Position.x := DragEvent.clientX event - Rect.left rect - 100;
           Position.y := DragEvent.clientY event - Rect.top rect - 50 |} in
      handleUpdateSubStep draggedSubStep (SubStepUpdate.ofPosition newPosition) ;;
      setDraggedSubStep None
  | _, _ => mret tt
  end.

End Component.

(** *** Values derived for display *)

(** [flattenedActionItems]: two nested [forEach] loops pushing onto [items]. *)
Definition flattenedActionItems `{Schema} (localDetails : Details.t) : list FlatItem.t :=
  foldl
    (λ items subStep,
       match SubStep.actionItems subStep with
       | Some actionItems =>
           foldl
             (λ items actionItem,
                items ++ [{| FlatItem.actionItem := actionItem;
                             FlatItem.subStep := subStep |}])
             items actionItems
       | None => items
       end)
    [] (Details.subSteps localDetails).

(** [{flattenedActionItems.length}] *)
Definition actionItemTotal `{Schema} (localDetails : Details.t) : nat :=
  length (flattenedActionItems localDetails).

(** [{flattenedActionItems.filter(item => item.actionItem.completed).length}] *)
Definition completedActionCount `{Schema} (localDetails : Details.t) : nat :=
  length (filter (λ item, ActionItem.completed (FlatItem.actionItem item) = true)
            (flattenedActionItems localDetails)).

(** *** Sequences of handler invocations *)

(** One invocation of a handler that is guarded by [canEdit], with the
    arguments and the answers it would be given. *)
Inductive Invocation `{Schema} :=
  | GenerateProposals
  | AddSubStep
  | UpdateSubStep (subStepId : string) (updates : SubStepUpdate.t)
  | RemoveSubStep (subStepId : string) (answer : bool)
  | AddActionItem (subStepId : string)
  | UpdateActionItem (subStepId actionItemId : string) (updates : ActionItemUpdate.t)
  | RemoveActionItem (subStepId actionItemId : string) (answer : bool)
  | AttachmentChange (selected : option File.t)
  | RemoveAttachment (attachmentId : string)
  | SubStepDragStart (subStepId : string)
  | CanvasDrop (canvas : option Rect.t) (event : DragEvent.t).

Definition invoke `{Host} (props : Props.t) (i : Invocation) : M unit :=
  match i with
  | GenerateProposals => handleGenerateProposals props ;; mret tt
  | AddSubStep => handleAddSubStep props
  | UpdateSubStep subStepId updates => handleUpdateSubStep props subStepId updates
  | RemoveSubStep subStepId answer => handleRemoveSubStep props subStepId answer
  | AddActionItem subStepId => handleAddActionItem props subStepId
  | UpdateActionItem subStepId actionItemId updates =>
      handleUpdateActionItem props subStepId actionItemId updates
  | RemoveActionItem subStepId actionItemId answer =>
      handleRemoveActionItem props subStepId actionItemId answer
  | AttachmentChange selected => handleAttachmentChange props selected ;; mret tt
  | RemoveAttachment attachmentId => handleRemoveAttachment props attachmentId
  | SubStepDragStart subStepId => handleSubStepDragStart props subStepId
  | CanvasDrop canvas event => handleCanvasDrop props canvas event
  end.

Fixpoint invokeAll `{Host} (props : Props.t) (l : list Invocation) : M unit :=
  match l with
  | [] => mret tt
  | i :: l => invoke props i ;; invokeAll props l
  end.

(** The edit buffer of a world, and its sub-steps. *)
Definition buffer `{Host} (w : World.t) : Details.t :=
  ModalState.localDetails (World.ui w).

(** Two detail objects that agree on every property but [subSteps]. *)
Definition sameButSubSteps `{Schema} (a b : Details.t) : Prop :=
  Details.resources a = Details.resources b ∧
  Details.responsible a = Details.responsible b ∧
  Details.notes a = Details.notes b ∧
  Details.attachments a = Details.attachments b ∧
  Details.decisions a = Details.decisions b ∧
  Details.subStepCanvasSize a = Details.subStepCanvasSize b ∧
  Details.reportDeck a = Details.reportDeck b ∧
  Details.rest a = Details.rest b.

(** Two detail objects that agree on every property but [reportDeck]. *)
Definition sameButReportDeck `{Schema} (a b : Details.t) : Prop :=
  Details.subSteps a = Details.subSteps b ∧
  Details.resources a = Details.resources b ∧
  Details.responsible a = Details.responsible b ∧
  Details.notes a = Details.notes b ∧
  Details.attachments a = Details.attachments b ∧
  Details.decisions a = Details.decisions b ∧
  Details.subStepCanvasSize a = Details.subStepCanvasSize b ∧
  Details.rest a = Details.rest b.

(** Two detail objects that agree on every property but [attachments]. *)
Definition sameButAttachments `{Schema} (a b : Details.t) : Prop :=
  Details.subSteps a = Details.subSteps b ∧
  Details.resources a = Details.resources b ∧
  Details.responsible a = Details.responsible b ∧
  Details.notes a = Details.notes b ∧
  Details.decisions a = Details.decisions b ∧
  Details.subStepCanvasSize a = Details.subStepCanvasSize b ∧
  Details.reportDeck a = Details.reportDeck b ∧
  Details.rest a = Details.rest b.

(** Two sub-steps that agree on every property but [position]. *)
Definition sameButPosition `{Schema} (a b : SubStep.t) : Prop :=
  SubStep.id a = SubStep.id b ∧
  SubStep.text a = SubStep.text b ∧
  SubStep.notes a = SubStep.notes b ∧
  SubStep.actionItems a = SubStep.actionItems b ∧
  SubStep.attachments a = SubStep.attachments b ∧
  SubStep.rest a = SubStep.rest b.

(** Two sub-steps that agree on every property but [actionItems]. *)
Definition sameButActionItems `{Schema} (a b : SubStep.t) : Prop :=
  SubStep.id a = SubStep.id b ∧
  SubStep.text a = SubStep.text b ∧
  SubStep.notes a = SubStep.notes b ∧
  SubStep.position a = SubStep.position b ∧
  SubStep.attachments a = SubStep.attachments b ∧
  SubStep.rest a = SubStep.rest b.

(** The entries one sub-step contributes, in order. *)
Definition itemsOf `{Schema} (subStep : SubStep.t) : list FlatItem.t :=
  (λ actionItem, {| FlatItem.actionItem := actionItem; FlatItem.subStep := subStep |})
  <$> default [] (SubStep.actionItems subStep).

(** The index [find] stops at: the first sub-step with the given id. *)
Definition firstWithId `{Schema} (target : string) (l : list SubStep.t) : option nat :=
  fst <$> list_find (λ ss, SubStep.id ss = target) l.

(** The requests that reach the sub-step at index [j] of [combined]. *)
Definition requestsFor `{Schema} (j : nat) (combined : list SubStep.t)
    (requests : list NewActionItem.t) : list NewActionItem.t :=
  filter (λ r, firstWithId (NewActionItem.targetSubStepId r) combined = Some j)
         requests.

(** ** A concrete host and sample data *)

Module Sample.

Definition schema : Schema :=
  {| JsVal := string; TaskDecision := string; SlideDeck := list string |}.
#[local] Existing Instance schema.

(** A serializer that tells apart the texts and the sub-step ids only. *)
Definition stringify (d : Details.t) : string :=
  Details.resources d +:+ "|" +:+ Details.responsible d +:+ "|" +:+
  Details.notes d +:+ "|" +:+
  foldr (λ ss acc, SubStep.id ss +:+ "," +:+ acc) "" (Details.subSteps d).

(** Ids [prefix_0], [prefix_1], ... numbered by a counter. *)
Definition host : Host :=
  {| IdGen := nat;
     generateUniqueId := λ prefix n, (prefix +:+ "_" +:+ pretty n, S n);
     JSON_stringify := stringify |}.
#[local] Existing Instance host.

Definition item (id text : string) (completed : bool) : ActionItem.t :=
  {| ActionItem.id := id; ActionItem.text := text;
     ActionItem.completed := completed; ActionItem.completedDate := None;
     ActionItem.rest := ∅ |}.

Definition design : SubStep.t :=
  {| SubStep.id := "s1"; SubStep.text := "Design"; SubStep.notes := Some "draft";
     SubStep.position := Some {| Position.x := 50; Position.y := 50 |};
     SubStep.actionItems := Some [item "a1" "sketch" true; item "a2" "review" false];
     SubStep.attachments := Some [];
     SubStep.rest := {[ "assignee" := "kei" ]} |}.

Definition build : SubStep.t :=
  {| SubStep.id := "s2"; SubStep.text := "Build"; SubStep.notes := None;
     SubStep.position := None;
     SubStep.actionItems := None;
     SubStep.attachments := None;
     SubStep.rest := ∅ |}.

Definition details : Details.t :=
  {| Details.subSteps := [design; build];
     Details.resources := "two engineers";
     Details.responsible := "tanaka";
     Details.notes := "";
     Details.attachments := None;
     Details.decisions := None;
     Details.subStepCanvasSize := None;
     Details.reportDeck := None;
     Details.rest := ∅ |}.

Definition detailsEdited : Details.t :=
  {| Details.subSteps := [design; build];
     Details.resources := "three engineers";
     Details.responsible := "tanaka";
     Details.notes := "";
     Details.attachments := None;
     Details.decisions := None;
     Details.subStepCanvasSize := None;
     Details.reportDeck := None;
     Details.rest := ∅ |}.

Definition detailsWithDeck : Details.t :=
  {| Details.subSteps := [design; build];
     Details.resources := "two engineers";
     Details.responsible := "tanaka";
     Details.notes := "";
     Details.attachments := None;
     Details.decisions := None;
     Details.subStepCanvasSize := None;
     Details.reportDeck := Some ["title"; "status"];
     Details.rest := ∅ |}.

Definition task : ProjectTask.t :=
  {| ProjectTask.id := "t1"; ProjectTask.title := "Launch";
     ProjectTask.description := "first release";
     ProjectTask.extendedDetails := Some details |}.

Definition bareTask : ProjectTask.t :=
  {| ProjectTask.id := "t2"; ProjectTask.title := "Plan";
     ProjectTask.description := "";
     ProjectTask.extendedDetails := None |}.

Definition taskWithDeck : ProjectTask.t :=
  {| ProjectTask.id := "t3"; ProjectTask.title := "Report";
     ProjectTask.description := "";
     ProjectTask.extendedDetails := Some detailsWithDeck |}.

Definition editing (t : ProjectTask.t) : Props.t :=
  {| Props.task := t; Props.projectGoal := "ship"; Props.targetDate := "2025-01-01";
     Props.canEdit := true |}.

Definition readOnly (t : ProjectTask.t) : Props.t :=
  {| Props.task := t; Props.projectGoal := "ship"; Props.targetDate := "2025-01-01";
     Props.canEdit := false |}.

(** The world right after the first render of the modal for [t]. *)
Definition opened (t : ProjectTask.t) : World.t :=
  {| World.ui := initialState t; World.idGen := 0 |}.

(** The world after a drag of the sub-step with id s2 has started. *)
Definition dragging : World.t :=
  after (handleSubStepDragStart (editing task) "s2") (opened task).

Definition canvas : Rect.t := {| Rect.left := 10; Rect.top := 20 |}.

Definition drop : DragEvent.t :=
  {| DragEvent.clientX := 400; DragEvent.clientY := 300 |}.

Definition photo : File.t :=
  {| File.name := "photo.png"; File.type := "image/png"; File.size := 2048 |}.

Definition video : File.t :=
  {| File.name := "talk.mp4"; File.type := "video/mp4"; File.size := 5242881 |}.

Definition additions : Additions.t :=
  {| Additions.newSubSteps :=
       [ {| Proposal.title := "Test"; Proposal.description := "unit tests" |};
         {| Proposal.title := "Deploy"; Proposal.description := "to staging" |};
         {| Proposal.title := "Announce"; Proposal.description := "" |};
         {| Proposal.title := "Measure"; Proposal.description := "usage" |} ];
     Additions.newActionItems :=
       [ {| NewActionItem.targetSubStepId := "s2"; NewActionItem.title := "compile" |};
         {| NewActionItem.targetSubStepId := "nowhere"; NewActionItem.title := "lost" |};
         {| NewActionItem.targetSubStepId := "s1"; NewActionItem.title := "publish" |};
         {| NewActionItem.targetSubStepId := "s2"; NewActionItem.title := "link" |} ] |}.

End Sample.

(** ** Further parts of the component *)

(** [useEffect(() => { setLocalDetails(extendedDetails) }, [extendedDetails])]:
    the buffer is replaced whenever the task brings other details. *)
Definition resetLocalDetails `{Host} (task : ProjectTask.t) : M unit :=
  setLocalDetails (λ _, extendedDetails task).

(** What the autosave effect goes through: a render that changed one of its
    dependencies, or time passing. *)
Inductive Moment `{Schema} :=
  | Rendered (task : ProjectTask.t) (localDetails : Details.t)
  | Passed (ms : nat).

(** The calls the autosave effect makes over a sequence of moments, starting
    with [timer] armed or not. *)
Fixpoint autosaveTrace `{Host} (moments : list Moment) (timer : option Timer)
    : list Effect :=
  match moments with
  | [] => []
  | Rendered task localDetails :: moments =>
      autosaveTrace moments (autosaveEffect task localDetails timer)
  | Passed ms :: moments =>
      (elapse ms timer).2 ++ autosaveTrace moments (elapse ms timer).1
  end.

Definition isRendered `{Schema} (m : Moment) : bool :=
  match m with
  | Rendered _ _ => true
  | Passed _ => false
  end.


(** The list under "recent activity":
    [flattenedActionItems.filter(item => item.actionItem.completed &&
    item.actionItem.completedDate).slice(0, 3)]. *)
Definition recentActivity `{Schema} (localDetails : Details.t) : list FlatItem.t :=
  take 3
    (filter
       (λ item,
          ActionItem.completed (FlatItem.actionItem item)
          && truthy (ActionItem.completedDate (FlatItem.actionItem item)) = true)
       (flattenedActionItems localDetails)).

(** Whether the "no completed action item" line is shown:
    [flattenedActionItems.filter(item => item.actionItem.completed).length === 0]. *)
Definition showsNoCompletedLine `{Schema} (localDetails : Details.t) : bool :=
  bool_decide (completedActionCount localDetails = 0).

(** The number of action items held by a list of sub-steps. *)
Definition actionItemCount `{Schema} (subSteps : list SubStep.t) : nat :=
  sum_list ((λ ss, length (default [] (SubStep.actionItems ss))) <$> subSteps).

(** The ids of the sub-steps of the buffer, in order. *)
Definition subStepIds `{Host} (w : World.t) : list string :=
  SubStep.id <$> Details.subSteps (buffer w).

(** The ids of the attachments of the buffer, in order. *)
Definition attachmentIds `{Host} (w : World.t) : list string :=
  Attachment.id <$> default [] (Details.attachments (buffer w)).




(** Where [handleProposalConfirm] puts the proposal of index [index]. *)
Definition gridPosition (index : nat) : Position.t :=
  {| Position.x := 50 + (Z.of_nat index `mod` 3) * 300;
     Position.y := 50 + (Z.of_nat index `div` 3) * 200 |}.

(** The sub-step [handleAddSubStep] appends, given its id. *)
Definition blankSubStep `{Schema} (id : string) : SubStep.t :=
  {| SubStep.id := id;
     SubStep.text := "新しいサブステップ";
     SubStep.notes := Some "";
     SubStep.position := Some {| Position.x := 50; Position.y := 50 |};
     SubStep.actionItems := Some [];
     SubStep.attachments := Some [];
     SubStep.rest := ∅ |}.


(** What object spread yields for one property: the value given by the
    update when the update has the key, the value kept otherwise. *)
Definition givenOrKept {A} (given : option A) (kept result : A) : Prop :=
  match given with
  | Some value => result = value
  | None => result = kept
  end.

(** The same for the properties the component does not name, key by key. *)
Definition restGivenOrKept `{Schema} (given kept result : gmap string JsVal) : Prop :=
  ∀ key, result !! key =
    match given !! key with
    | Some value => Some value
    | None => kept !! key
    end.

(** [merged] is [ss] with the properties of [updates] written over it. *)
Definition mergedSubStep `{Schema} (ss : SubStep.t) (updates : SubStepUpdate.t)
    (merged : SubStep.t) : Prop :=
  givenOrKept (SubStepUpdate.id updates) (SubStep.id ss) (SubStep.id merged) ∧
  givenOrKept (SubStepUpdate.text updates) (SubStep.text ss) (SubStep.text merged) ∧
  givenOrKept (SubStepUpdate.notes updates) (SubStep.notes ss) (SubStep.notes merged) ∧
  givenOrKept (SubStepUpdate.position updates) (SubStep.position ss)
    (SubStep.position merged) ∧
  givenOrKept (SubStepUpdate.actionItems updates) (SubStep.actionItems ss)
    (SubStep.actionItems merged) ∧
  givenOrKept (SubStepUpdate.attachments updates) (SubStep.attachments ss)
    (SubStep.attachments merged) ∧
  restGivenOrKept (SubStepUpdate.rest updates) (SubStep.rest ss) (SubStep.rest merged).

(** [merged] is [ai] with the properties of [updates] written over it. *)
Definition mergedActionItem `{Schema} (ai : ActionItem.t) (updates : ActionItemUpdate.t)
    (merged : ActionItem.t) : Prop :=
  givenOrKept (ActionItemUpdate.id updates) (ActionItem.id ai) (ActionItem.id merged) ∧
  givenOrKept (ActionItemUpdate.text updates) (ActionItem.text ai)
    (ActionItem.text merged) ∧
  givenOrKept (ActionItemUpdate.completed updates) (ActionItem.completed ai)
    (ActionItem.completed merged) ∧
  givenOrKept (ActionItemUpdate.completedDate updates) (ActionItem.completedDate ai)
    (ActionItem.completedDate merged) ∧
  restGivenOrKept (ActionItemUpdate.rest updates) (ActionItem.rest ai)
    (ActionItem.rest merged).

(** More sample data. *)
Module MoreSamples.
Import Sample.
#[local] Existing Instance Sample.schema.
#[local] Existing Instance Sample.host.

Definition dated : ActionItem.t :=
  {| ActionItem.id := "a9"; ActionItem.text := "ship"; ActionItem.completed := true;
     ActionItem.completedDate := Some "2025-02-01"; ActionItem.rest := ∅ |}.

Definition release : SubStep.t :=
  {| SubStep.id := "s3"; SubStep.text := "Release"; SubStep.notes := None;
     SubStep.position := None;
     SubStep.actionItems := Some [dated; item "a1" "sketch" true];
     SubStep.attachments := None;
     SubStep.rest := ∅ |}.

Definition detailsReleased : Details.t :=
  {| Details.subSteps := [design; release];
     Details.resources := "two engineers";
     Details.responsible := "tanaka";
     Details.notes := "";
     Details.attachments := None;
     Details.decisions := None;
     Details.subStepCanvasSize := None;
     Details.reportDeck := None;
     Details.rest := ∅ |}.

Definition shipped : FlatItem.t :=
  {| FlatItem.actionItem := dated; FlatItem.subStep := release |}.

Definition complete : ActionItemUpdate.t :=
  {| ActionItemUpdate.id := None; ActionItemUpdate.text := None;
     ActionItemUpdate.completed := Some true;
     ActionItemUpdate.completedDate := None; ActionItemUpdate.rest := ∅ |}.

Definition logo : Attachment.t :=
  {| Attachment.id := "f1"; Attachment.name := "logo.png";
     Attachment.type := "image/png"; Attachment.dataUrl := "data:image/png;base64,AA" |}.

Definition brief : Attachment.t :=
  {| Attachment.id := "f2"; Attachment.name := "brief.pdf";
     Attachment.type := "application/pdf";
     Attachment.dataUrl := "data:application/pdf;base64,BB" |}.

Definition detailsWithFiles : Details.t :=
  {| Details.subSteps := [design; build];
     Details.resources := "two engineers";
     Details.responsible := "tanaka";
     Details.notes := "";
     Details.attachments := Some [logo; brief];
     Details.decisions := None;
     Details.subStepCanvasSize := None;
     Details.reportDeck := None;
     Details.rest := ∅ |}.

Definition taskWithFiles : ProjectTask.t :=
  {| ProjectTask.id := "t4"; ProjectTask.title := "Brand";
     ProjectTask.description := "";
     ProjectTask.extendedDetails := Some detailsWithFiles |}.

Definition cover : SlideDeck := ["title"].

Definition memo : File.t :=
  {| File.name := "memo.txt"; File.type := "text/plain"; File.size := 1024 |}.

(** What [reader.onload] makes of [photo] and of [memo], given an id. *)
Definition photoAs (id : string) : Attachment.t :=
  {| Attachment.id := id; Attachment.name := "photo.png";
     Attachment.type := "image/png"; Attachment.dataUrl := "data:image/png;base64,CC" |}.

Definition memoAs (id : string) : Attachment.t :=
  {| Attachment.id := id; Attachment.name := "memo.txt";
     Attachment.type := "text/plain"; Attachment.dataUrl := "data:text/plain;base64,DD" |}.

(** An update that renames a sub-step and moves it, and says so about a
    property the component does not name. *)
Definition moved : SubStepUpdate.t :=
  {| SubStepUpdate.id := None; SubStepUpdate.text := Some "Assemble";
     SubStepUpdate.notes := None;
     SubStepUpdate.position := Some (Some {| Position.x := 7; Position.y := 9 |});
     SubStepUpdate.actionItems := None; SubStepUpdate.attachments := None;
     SubStepUpdate.rest := {[ "assignee" := "aya" ]} |}.


End MoreSamples.

(** * Properties *)

(** Unfold the observations of a run. *)
Ltac observe := unfold buffer, after, calls, result.

Section Properties.
Context `{Host}.
Implicit Types (w : World.t) (props : Props.t) (d : Details.t).

(** ** Merging into the buffer *)

Lemma spread_ofSubSteps d l :
  Details.subSteps (Details.spread d (DetailsUpdate.ofSubSteps l)) = l ∧
  sameButSubSteps (Details.spread d (DetailsUpdate.ofSubSteps l)) d.
Proof.
  split; [done|].
  repeat split; simpl; try done. by rewrite (left_id_L ∅ (∪)).
Qed.

(** ** The initial buffer *)

(** C10.  A task without [extendedDetails] opens the modal on the default
    details: no sub-steps, attachments or decisions, empty [resources],
    [responsible] and [notes], and a 1200 x 800 canvas.  A task that has
    [extendedDetails] opens it on exactly that value. *)
Theorem initial_buffer (task : ProjectTask.t) :
  (ProjectTask.extendedDetails task = None →
     let d := ModalState.localDetails (initialState task) in
     Details.subSteps d = [] ∧
     Details.attachments d = Some [] ∧
     Details.decisions d = Some [] ∧
     Details.resources d = "" ∧
     Details.responsible d = "" ∧
     Details.notes d = "" ∧
     Details.subStepCanvasSize d =
       Some {| CanvasSize.width := 1200; CanvasSize.height := 800 |}) ∧
  (∀ details, ProjectTask.extendedDetails task = Some details →
     ModalState.localDetails (initialState task) = details).
Proof.
  unfold initialState, extendedDetails; simpl. split.
  - intros ->. by repeat split.
  - by intros details ->.
Qed.

(** ** Autosave *)

(** C1.  When the autosave timer fires it calls [onUpdateTask] with the
    task's id and the whole buffer exactly if the buffer and the persisted
    details serialize differently, and makes no call exactly if they
    serialize alike.  The timer armed by the effect fires once 1000 ms have
    passed, on the values of the render that armed it, and not before. *)
Theorem autosave_iff_serializations_differ
    (task : ProjectTask.t) (localDetails : Details.t) (previous : option Timer) :
  let persisted := extendedDetails task in
  let armed := autosaveEffect task localDetails previous in
  let fired := (elapse AUTOSAVE_DELAY armed).2 in
  fired = autosaveTimeout (ProjectTask.id task) localDetails persisted ∧
  (fired = [OnUpdateTask (ProjectTask.id task) localDetails]
     ↔ JSON_stringify localDetails ≠ JSON_stringify persisted) ∧
  (fired = [] ↔ JSON_stringify localDetails = JSON_stringify persisted) ∧
  (∀ ms, ms < AUTOSAVE_DELAY → (elapse ms armed).2 = []).
Proof.
  intros persisted armed fired.
  assert (Hfired : fired = autosaveTimeout (ProjectTask.id task) localDetails persisted).
  { subst fired armed. unfold elapse, autosaveEffect.
    cbn [remaining timerTaskId timerLocal timerExtended].
    by rewrite bool_decide_eq_true_2 by apply Nat.le_refl. }
  clearbody fired. subst fired. split; [done|]. split_and!.
  - unfold autosaveTimeout, saveChanges. case_bool_decide as Hne; split; try done.
  - unfold autosaveTimeout, saveChanges. case_bool_decide as Hne; split; try done.
  - intros ms Hms. subst armed. unfold elapse, autosaveEffect.
    cbn [remaining timerTaskId timerLocal timerExtended].
    rewrite bool_decide_eq_false_2; [done|]. by apply Nat.lt_nge.
Qed.

(** ** Flattening *)

Lemma push_each_is_append (subStep : SubStep.t) (actionItems : list ActionItem.t)
    (items : list FlatItem.t) :
  foldl (λ items actionItem,
           items ++ [{| FlatItem.actionItem := actionItem;
                        FlatItem.subStep := subStep |}])
        items actionItems
  = items ++ ((λ actionItem, {| FlatItem.actionItem := actionItem;
                                FlatItem.subStep := subStep |}) <$> actionItems).
Proof.
  revert items. induction actionItems as [|a l IH]; intros items; simpl.
  - by rewrite app_nil_r.
  - by rewrite IH, <- app_assoc.
Qed.

Lemma flatten_from (subSteps : list SubStep.t) (items : list FlatItem.t) :
  foldl
    (λ items subStep,
       match SubStep.actionItems subStep with
       | Some actionItems =>
           foldl
             (λ items actionItem,
                items ++ [{| FlatItem.actionItem := actionItem;
                             FlatItem.subStep := subStep |}])
             items actionItems
       | None => items
       end)
    items subSteps
  = items ++ concat (itemsOf <$> subSteps).
Proof.
  revert items. induction subSteps as [|ss l IH]; intros items; simpl.
  - by rewrite app_nil_r.
  - rewrite IH. unfold itemsOf at 2.
    destruct (SubStep.actionItems ss) as [ais|]; simpl.
    + by rewrite push_each_is_append, <- app_assoc.
    + done.
Qed.

Lemma length_concat_sum {A} (ls : list (list A)) :
  length (concat ls) = sum_list (length <$> ls).
Proof.
  induction ls as [|l ls IH]; simpl; [done|]. by rewrite length_app, IH.
Qed.

Lemma filter_concat {A} (P : A → Prop) `{!∀ x, Decision (P x)} (ls : list (list A)) :
  filter P (concat ls) = concat (filter P <$> ls).
Proof.
  induction ls as [|l ls IH]; simpl; [done|]. by rewrite filter_app, IH.
Qed.

Lemma length_filter_fmap {A B} (f : A → B) (P : B → Prop) `{!∀ y, Decision (P y)}
    (l : list A) :
  length (filter P (f <$> l)) = length (filter (λ x, P (f x)) l).
Proof.
  induction l as [|a l IH]; [done|].
  rewrite fmap_cons, !filter_cons.
  destruct (decide (P (f a))); [rewrite !length_cons|]; by rewrite IH.
Qed.

(** C9.  [flattenedActionItems] is the concatenation, in sub-step order, of
    each sub-step's action items (none when [actionItems] is missing), each
    paired with the sub-step that owns it; so the displayed total and the
    displayed completed count are the sums of the per-sub-step numbers. *)
Theorem flattened_is_concatenation d :
  flattenedActionItems d = concat (itemsOf <$> Details.subSteps d) ∧
  actionItemTotal d =
    sum_list ((λ ss, length (default [] (SubStep.actionItems ss)))
              <$> Details.subSteps d) ∧
  completedActionCount d =
    sum_list ((λ ss, length (filter (λ ai, ActionItem.completed ai = true)
                               (default [] (SubStep.actionItems ss))))
              <$> Details.subSteps d).
Proof.
  assert (Hflat : flattenedActionItems d = concat (itemsOf <$> Details.subSteps d)).
  { unfold flattenedActionItems. by rewrite flatten_from. }
  split; [done|]. unfold actionItemTotal, completedActionCount. rewrite Hflat.
  split.
  - rewrite length_concat_sum, <- list_fmap_compose. f_equal.
    apply list_fmap_ext. intros i ss _. simpl. unfold itemsOf. by rewrite length_fmap.
  - rewrite filter_concat, length_concat_sum, <- !list_fmap_compose. f_equal.
    apply list_fmap_ext. intros i ss _. simpl. unfold itemsOf.
    by rewrite length_filter_fmap.
Qed.

(** ** Sub-step handlers *)

Lemma handleUpdateSubStep_buffer props w subStepId updates :
  Props.canEdit props = true →
  let w' := after (handleUpdateSubStep props subStepId updates) w in
  Details.subSteps (buffer w') =
    ((λ ss, if bool_decide (SubStep.id ss = subStepId)
            then SubStep.spread ss updates else ss)
     <$> Details.subSteps (buffer w)) ∧
  sameButSubSteps (buffer w') (buffer w).
Proof.
  intros Hedit. observe. unfold handleUpdateSubStep. rewrite Hedit. simpl.
  apply spread_ofSubSteps.
Qed.

Lemma handleRemoveSubStep_buffer props w subStepId :
  Props.canEdit props = true →
  let w' := after (handleRemoveSubStep props subStepId true) w in
  Details.subSteps (buffer w') =
    filter (λ ss, SubStep.id ss ≠ subStepId) (Details.subSteps (buffer w)) ∧
  sameButSubSteps (buffer w') (buffer w).
Proof.
  intros Hedit. observe. unfold handleRemoveSubStep. rewrite Hedit. simpl.
  apply spread_ofSubSteps.
Qed.

Lemma filter_nothing_to_remove {A} (P : A → Prop) `{!∀ x, Decision (P x)} (l : list A) :
  (∀ x, x ∈ l → P x) → filter P l = l.
Proof.
  induction l as [|a l IH]; intros Hall; [done|].
  rewrite filter_cons_True by (apply Hall; left).
  f_equal. apply IH. intros x Hx. apply Hall. by right.
Qed.

Lemma fmap_nothing_to_update {A} (P : A → Prop) `{!∀ x, Decision (P x)} (f : A → A)
    (l : list A) :
  (∀ x, x ∈ l → ¬ P x) → ((λ x, if bool_decide (P x) then f x else x) <$> l) = l.
Proof.
  intros Hnone. rewrite <- (list_fmap_id l) at 2.
  apply list_fmap_ext. intros i x Hx. simpl.
  rewrite bool_decide_eq_false_2; [done|].
  apply Hnone. by eapply list_elem_of_lookup_2.
Qed.

Lemma givenOrKept_default {A} (given : option A) (kept : A) :
  givenOrKept given kept (default kept given).
Proof. by destruct given. Qed.

Lemma restGivenOrKept_union (given kept : gmap string JsVal) :
  restGivenOrKept given kept (given ∪ kept).
Proof.
  intros key. rewrite lookup_union.
  by destruct (given !! key), (kept !! key).
Qed.

Lemma spread_is_merged (ss : SubStep.t) (updates : SubStepUpdate.t) :
  mergedSubStep ss updates (SubStep.spread ss updates).
Proof.
  unfold mergedSubStep, SubStep.spread. simpl.
  split_and!; try apply givenOrKept_default. apply restGivenOrKept_union.
Qed.

(** C3.  In edit mode, [handleRemoveSubStep], once confirmed, keeps exactly
    the sub-steps whose id differs from the given one, in their order.
    [handleUpdateSubStep] keeps the number and order of the sub-steps and
    leaves every sub-step with another id as it is; in a sub-step with the
    given id each property that the partial update gives takes the value
    given, and each property it does not give keeps its value.  When no
    sub-step has the given id, both leave the list as it was.  A removal
    that is not confirmed changes nothing. *)
Theorem substep_remove_and_update props w subStepId updates :
  Props.canEdit props = true →
  let before := Details.subSteps (buffer w) in
  let removed :=
    Details.subSteps (buffer (after (handleRemoveSubStep props subStepId true) w)) in
  let updated :=
    Details.subSteps (buffer (after (handleUpdateSubStep props subStepId updates) w)) in
  (removed = filter (λ ss, SubStep.id ss ≠ subStepId) before ∧
   removed `sublist_of` before ∧
   (∀ ss, ss ∈ removed ↔ ss ∈ before ∧ SubStep.id ss ≠ subStepId)) ∧
  (length updated = length before ∧
   ∀ i ss, before !! i = Some ss →
     ∃ ss', updated !! i = Some ss' ∧
       (SubStep.id ss ≠ subStepId → ss' = ss) ∧
       (SubStep.id ss = subStepId → mergedSubStep ss updates ss')) ∧
  ((∀ ss, ss ∈ before → SubStep.id ss ≠ subStepId) →
     removed = before ∧ updated = before) ∧
  after (handleRemoveSubStep props subStepId false) w = w.
Proof.
  intros Hedit before removed updated.
  destruct (handleRemoveSubStep_buffer props w subStepId Hedit) as [Hrem _].
  destruct (handleUpdateSubStep_buffer props w subStepId updates Hedit) as [Hupd _].
  cbv zeta in Hrem, Hupd. subst before removed updated. rewrite Hrem, Hupd. clear Hrem Hupd.
  split; [|split; [|split]].
  - split; [done|]. split; [apply sublist_filter|].
    intros ss. rewrite list_elem_of_filter. tauto.
  - split; [apply length_fmap|].
    intros i ss Hi. rewrite list_lookup_fmap, Hi. simpl.
    eexists; split; [done|]. case_bool_decide as Hid.
    + split; [done|]. intros _. apply spread_is_merged.
    + split; done.
  - intros Hnone. split.
    + by apply filter_nothing_to_remove.
    + apply fmap_nothing_to_update. intros ss Hin. by apply Hnone.
  - observe. unfold handleRemoveSubStep. rewrite Hedit. simpl. by destruct w.
Qed.

(** ** Drag and drop *)

Lemma spread_ofPosition (ss : SubStep.t) (p : Position.t) :
  SubStep.position (SubStep.spread ss (SubStepUpdate.ofPosition p)) = Some p ∧
  sameButPosition (SubStep.spread ss (SubStepUpdate.ofPosition p)) ss.
Proof.
  split; [done|].
  repeat split; simpl; try done. by rewrite (left_id_L ∅ (∪)).
Qed.

Lemma handleCanvasDrop_accepted props w rect event dragged :
  Props.canEdit props = true →
  ModalState.draggedSubStep (World.ui w) = Some dragged →
  dragged ≠ "" →
  buffer (after (handleCanvasDrop props (Some rect) event) w) =
  buffer (after (handleUpdateSubStep props dragged
                   (SubStepUpdate.ofPosition
                      {| Position.x := DragEvent.clientX event - Rect.left rect - 100;
                         Position.y := DragEvent.clientY event - Rect.top rect - 50 |}))
                w).
Proof.
  intros Hedit Hdragged Hne. observe.
  unfold handleCanvasDrop, handleUpdateSubStep. simpl.
  rewrite Hdragged, Hedit. simpl.
  rewrite bool_decide_eq_false_2 by done. simpl. done.
Qed.

(** C2.  A drop on the canvas in edit mode, while a sub-step id is being
    dragged, sets the position of the sub-steps with that id to
    (clientX - left - 100, clientY - top - 50) and changes nothing else:
    their other properties, the sub-steps with another id, the number and
    order of the sub-steps and every other property of the buffer stay as
    they were. *)
Theorem canvas_drop_moves_only_the_dragged props w rect event dragged :
  Props.canEdit props = true →
  ModalState.draggedSubStep (World.ui w) = Some dragged →
  dragged ≠ "" →
  let newPosition :=
    {| Position.x := DragEvent.clientX event - Rect.left rect - 100;
       Position.y := DragEvent.clientY event - Rect.top rect - 50 |} in
  let w' := after (handleCanvasDrop props (Some rect) event) w in
  length (Details.subSteps (buffer w')) = length (Details.subSteps (buffer w)) ∧
  (∀ i ss, Details.subSteps (buffer w) !! i = Some ss →
     ∃ ss', Details.subSteps (buffer w') !! i = Some ss' ∧
       if bool_decide (SubStep.id ss = dragged)
       then SubStep.position ss' = Some newPosition ∧ sameButPosition ss' ss
       else ss' = ss) ∧
  sameButSubSteps (buffer w') (buffer w).
Proof.
  intros Hedit Hdragged Hne newPosition w'. subst w'.
  rewrite (handleCanvasDrop_accepted props w rect event dragged Hedit Hdragged Hne).
  fold newPosition.
  destruct (handleUpdateSubStep_buffer props w dragged
              (SubStepUpdate.ofPosition newPosition) Hedit) as [Hsub Hrest].
  cbv zeta in Hsub, Hrest. rewrite Hsub.
  split; [apply length_fmap|]. split; [|done].
  intros i ss Hi. rewrite list_lookup_fmap, Hi. simpl.
  eexists; split; [done|].
  case_bool_decide; [apply spread_ofPosition|done].
Qed.

(** ** Read-only mode *)

Lemma invoke_read_only props (i : Invocation) w :
  Props.canEdit props = false → run (invoke props i) w = (tt, w, []).
Proof.
  intros Hro.
  destruct i; simpl;
    unfold handleGenerateProposals, handleAddSubStep, handleUpdateSubStep,
      handleRemoveSubStep, handleAddActionItem, handleUpdateActionItem,
      handleRemoveActionItem, handleAttachmentChange, handleRemoveAttachment,
      handleSubStepDragStart, handleCanvasDrop;
    rewrite Hro; reflexivity.
Qed.

Lemma invokeAll_read_only props (l : list Invocation) w :
  Props.canEdit props = false → run (invokeAll props l) w = (tt, w, []).
Proof.
  intros Hro. induction l as [|i l IH]; [done|].
  simpl. by rewrite (invoke_read_only props i w Hro), IH.
Qed.

(** C8.  When [canEdit] is false, each of the eleven guarded handlers
    returns at once: after any sequence of their invocations the edit buffer
    is what it was, and so is the rest of the state, and no call has left
    the component. *)
Theorem read_only_buffer_is_frozen props (l : list Invocation) w :
  Props.canEdit props = false →
  buffer (after (invokeAll props l) w) = buffer w ∧
  after (invokeAll props l) w = w ∧
  calls (invokeAll props l) w = [] ∧
  (∀ i, i ∈ l → after (invoke props i) w = w).
Proof.
  intros Hro. observe.
  rewrite (invokeAll_read_only props l w Hro). simpl.
  repeat split. intros i _. by rewrite (invoke_read_only props i w Hro).
Qed.

(** ** Calls to the AI service *)

Lemma spread_ofReportDeck d (deck : SlideDeck) :
  Details.reportDeck (Details.spread d (DetailsUpdate.ofReportDeck deck)) = Some deck ∧
  sameButReportDeck (Details.spread d (DetailsUpdate.ofReportDeck deck)) d.
Proof.
  split; [done|].
  repeat split; simpl. by rewrite (left_id_L ∅ (∪)).
Qed.

Lemma spread_ofAttachments d (l : list Attachment.t) :
  Details.attachments (Details.spread d (DetailsUpdate.ofAttachments l)) = Some l ∧
  sameButAttachments (Details.spread d (DetailsUpdate.ofAttachments l)) d.
Proof.
  split; [done|].
  repeat split; simpl. by rewrite (left_id_L ∅ (∪)).
Qed.

(** C7.  In edit mode [handleGenerateProposals] calls [generateStepProposals]
    for the task.  If the call throws, the error recorded is the message of
    the thrown [Error], or the fixed message when the thrown value is not an
    [Error]; [showProposalReview] and the stored proposals are left as they
    were and the buffer is untouched.  If it returns, the proposals returned
    are stored and the review modal is shown.  Either way
    [isGeneratingProposals] ends up false, whatever happened to the state
    while the call was pending. *)
Theorem generate_proposals_outcomes props w :
  Props.canEdit props = true →
  let w1 := after (handleGenerateProposals props) w in
  (result (handleGenerateProposals props) w = true ∧
   calls (handleGenerateProposals props) w = [GenerateStepProposals (Props.task props)] ∧
   buffer w1 = buffer w ∧
   ModalState.showProposalReview (World.ui w1) = ModalState.showProposalReview (World.ui w) ∧
   ModalState.isGeneratingProposals (World.ui w1) = true) ∧
  ∀ w2,
    (∀ err,
       let w3 := after (handleGenerateProposals_resume (Rejected err)) w2 in
       ModalState.proposalError (World.ui w3) =
         Some (match err with
               | ErrorObject message => message
               | NonError => "ステップ提案の生成に失敗しました。"
               end) ∧
       ModalState.showProposalReview (World.ui w3)
         = ModalState.showProposalReview (World.ui w2) ∧
       ModalState.proposals (World.ui w3) = ModalState.proposals (World.ui w2) ∧
       buffer w3 = buffer w2 ∧
       ModalState.isGeneratingProposals (World.ui w3) = false ∧
       calls (handleGenerateProposals_resume (Rejected err)) w2 = []) ∧
    (∀ generated,
       let w3 := after (handleGenerateProposals_resume (Fulfilled generated)) w2 in
       ModalState.proposals (World.ui w3) = generated ∧
       ModalState.showProposalReview (World.ui w3) = true ∧
       buffer w3 = buffer w2 ∧
       ModalState.isGeneratingProposals (World.ui w3) = false).
Proof.
  intros Hedit w1. subst w1. observe. unfold handleGenerateProposals.
  rewrite Hedit. simpl. split; [done|].
  intros w2. split.
  - intros err. by destruct err.
  - done.
Qed.

(** C6.  When the buffer has a [reportDeck], [handleGenerateSlides] opens
    the slide editor, makes no call and leaves the buffer, deck included, as
    it is.  When it has none, the handler calls [generateInitialSlideDeck];
    if that returns, the deck is stored in the buffer, whose other
    properties are kept, and the editor is opened; if it throws, an error
    message is recorded and the buffer stays as it is, still without a
    deck.  After either outcome [isGeneratingSlides] is false; on the first
    path the flag is not touched, and it is false there too since the button
    that runs the handler is disabled while the flag is true. *)
Theorem generate_slides_branches props w :
  let w1 := after (handleGenerateSlides props) w in
  (∀ deck, Details.reportDeck (buffer w) = Some deck →
     result (handleGenerateSlides props) w = false ∧
     calls (handleGenerateSlides props) w = [] ∧
     buffer w1 = buffer w ∧
     ModalState.isSlideEditorOpen (World.ui w1) = true ∧
     ModalState.isGeneratingSlides (World.ui w1)
       = ModalState.isGeneratingSlides (World.ui w) ∧
     (ModalState.isGeneratingSlides (World.ui w) = false →
        run (clickGenerateSlides props) w = run (handleGenerateSlides props) w ∧
        ModalState.isGeneratingSlides (World.ui w1) = false)) ∧
  (Details.reportDeck (buffer w) = None →
     result (handleGenerateSlides props) w = true ∧
     calls (handleGenerateSlides props) w =
       [GenerateInitialSlideDeck (Props.task props) (Props.projectGoal props)] ∧
     buffer w1 = buffer w) ∧
  ∀ w2,
    (∀ deck,
       let w3 := after (handleGenerateSlides_resume (Fulfilled deck)) w2 in
       Details.reportDeck (buffer w3) = Some deck ∧
       sameButReportDeck (buffer w3) (buffer w2) ∧
       ModalState.isSlideEditorOpen (World.ui w3) = true ∧
       ModalState.isGeneratingSlides (World.ui w3) = false) ∧
    (∀ err,
       let w3 := after (handleGenerateSlides_resume (Rejected err)) w2 in
       ModalState.slideError (World.ui w3) =
         Some (match err with
               | ErrorObject message => message
               | NonError => "スライドの生成に失敗しました。"
               end) ∧
       buffer w3 = buffer w2 ∧
       ModalState.isSlideEditorOpen (World.ui w3)
         = ModalState.isSlideEditorOpen (World.ui w2) ∧
       ModalState.isGeneratingSlides (World.ui w3) = false ∧
       calls (handleGenerateSlides_resume (Rejected err)) w2 = []).
Proof.
  intros w1. subst w1. observe. unfold clickGenerateSlides, handleGenerateSlides.
  simpl. split; [|split].
  - intros deck Hdeck. rewrite Hdeck. simpl. split_and!; try done.
    intros Hidle. rewrite Hidle. simpl. rewrite Hdeck. simpl. by rewrite Hidle.
  - intros Hnone. by rewrite Hnone.
  - intros w2. split.
    + intros deck. simpl. split_and!; try done. apply spread_ofReportDeck.
    + intros err. by destruct err.
Qed.

(** ** Attachments *)

(** The size limit and what [reader.onload] writes.  In edit mode, a
    selected file is turned down exactly when its size exceeds
    5 * 1024 * 1024 bytes: an alert is shown, the file input is cleared, no
    read is started and the state, attachments included, is what it was.
    Any other file is read (and the input cleared as well); once its data
    URL has arrived, in whatever state [w2], the attachments of the buffer
    are the attachments the closure of [onload] holds, those of the moment
    the file was selected, followed by one new attachment; the attachments
    of [w2] itself play no part. *)
Theorem attachment_size_limit props w (file : File.t) :
  Props.canEdit props = true →
  let started := result (handleAttachmentChange props (Some file)) w in
  let made := calls (handleAttachmentChange props (Some file)) w in
  let existing := Details.attachments (buffer w) in
  (started = None ↔ (File.size file > 5 * 1024 * 1024)%Z) ∧
  after (handleAttachmentChange props (Some file)) w = w ∧
  ClearFileInput ∈ made ∧
  ((File.size file > 5 * 1024 * 1024)%Z →
     (ReadAsDataURL file ∉ made) ∧
     made = [Alert "ファイルサイズが大きすぎます。5MB未満のファイルを選択してください。";
             ClearFileInput]) ∧
  ((File.size file ≤ 5 * 1024 * 1024)%Z →
     made = [ReadAsDataURL file; ClearFileInput] ∧
     started =
       Some {| PendingRead.file := file; PendingRead.attachments := existing |}) ∧
  ∀ w2 dataUrl,
    let pending :=
      {| PendingRead.file := file; PendingRead.attachments := existing |} in
    let w3 := after (reader_onload pending (Some dataUrl)) w2 in
    Details.attachments (buffer w3) =
      Some (default [] existing ++
            [ {| Attachment.id := (generateUniqueId "attach" (World.idGen w2)).1;
                 Attachment.name := File.name file;
                 Attachment.type := File.type file;
                 Attachment.dataUrl := dataUrl |} ]) ∧
    sameButAttachments (buffer w3) (buffer w2).
Proof.
  intros Hedit started made existing. subst started made existing.
  observe. unfold handleAttachmentChange. rewrite Hedit. simpl.
  change MAX_FILE_SIZE_BYTES with (5 * 1024 * 1024)%Z.
  assert (Honload : ∀ w2 dataUrl,
    Details.attachments
      (buffer (after (reader_onload
                        {| PendingRead.file := file;
                           PendingRead.attachments := Details.attachments (buffer w) |}
                        (Some dataUrl)) w2)) =
      Some (default [] (Details.attachments (buffer w)) ++
            [ {| Attachment.id := (generateUniqueId "attach" (World.idGen w2)).1;
                 Attachment.name := File.name file;
                 Attachment.type := File.type file;
                 Attachment.dataUrl := dataUrl |} ]) ∧
    sameButAttachments
      (buffer (after (reader_onload
                        {| PendingRead.file := file;
                           PendingRead.attachments := Details.attachments (buffer w) |}
                        (Some dataUrl)) w2))
      (buffer w2)).
  { intros w2 dataUrl. observe. unfold reader_onload. simpl.
    destruct (generateUniqueId "attach" (World.idGen w2)) as [id g]. simpl.
    apply spread_ofAttachments. }
  case_bool_decide as Hsize; simpl.
  - split_and!; try done.
    + rewrite !elem_of_cons. auto.
    + intros _. split; [|done].
      rewrite !not_elem_of_cons. split_and!; try done. apply not_elem_of_nil.
  - split_and!; try done.
    + rewrite !elem_of_cons. auto.
Qed.

(** ** Confirming proposals *)

Lemma firstWithId_cons (target : string) (ss : SubStep.t) (l : list SubStep.t) :
  firstWithId target (ss :: l) =
    if bool_decide (SubStep.id ss = target) then Some 0
    else S <$> firstWithId target l.
Proof.
  unfold firstWithId. simpl.
  case_bool_decide as Hid.
  - by rewrite decide_True.
  - rewrite decide_False by done.
    by destruct (list_find _ l) as [[i x]|].
Qed.

Lemma firstWithId_ids (target : string) (l1 l2 : list SubStep.t) :
  SubStep.id <$> l1 = SubStep.id <$> l2 →
  firstWithId target l1 = firstWithId target l2.
Proof.
  revert l2. induction l1 as [|a l1 IH]; intros [|b l2] Hids; try done.
  rewrite !fmap_cons in Hids. injection Hids as Hab Hrest.
  rewrite !firstWithId_cons, Hab. by rewrite (IH l2 Hrest).
Qed.

(** The new sub-steps: one per proposal, laid out on a grid of three columns,
    without touching the component state. *)
Lemma newSubSteps_layout (proposals : list Proposal.t) : ∀ (start : nat) w,
  let news := result (mapWithIndex newSubStepOfProposal start proposals) w in
  World.ui (after (mapWithIndex newSubStepOfProposal start proposals) w) = World.ui w ∧
  calls (mapWithIndex newSubStepOfProposal start proposals) w = [] ∧
  length news = length proposals ∧
  ∀ i proposal, proposals !! i = Some proposal →
    ∃ ss, news !! i = Some ss ∧
      SubStep.text ss = Proposal.title proposal ∧
      SubStep.notes ss = Some (Proposal.description proposal) ∧
      SubStep.position ss =
        Some {| Position.x := 50 + (Z.of_nat (start + i) `mod` 3) * 300;
                Position.y := 50 + (Z.of_nat (start + i) `div` 3) * 200 |} ∧
      SubStep.actionItems ss = Some [] ∧
      SubStep.attachments ss = Some [] ∧
      SubStep.rest ss = ∅.
Proof.
  induction proposals as [|p ps IH]; intros start w.
  - simpl. split_and!; try done.
  - observe. simpl.
    destruct (generateUniqueId "substep" (World.idGen w)) as [id g] eqn:Hgen. simpl.
    set (w1 := {| World.ui := World.ui w; World.idGen := g |}).
    specialize (IH (S start) w1). revert IH. observe.
    destruct (run (mapWithIndex newSubStepOfProposal (S start) ps) w1)
      as [[news w2] made]. simpl.
    intros (Hui & Hmade & Hlen & Hnews). split_and!.
    + done.
    + by rewrite Hmade.
    + by rewrite Hlen.
    + intros [|i] proposal Hi; simpl in Hi.
      * injection Hi as <-. eexists; split; [done|]. simpl.
        split_and!; try done.
        rewrite Z.rem_mod_nonneg by lia. by rewrite Nat.add_0_r.
      * destruct (Hnews i proposal Hi) as (ss & Hss & Hprops).
        exists ss. split; [done|].
        by replace (start + S i) with (S start + i) by lia.
Qed.

Lemma sameButActionItems_trans (a b c : SubStep.t) :
  sameButActionItems a b → sameButActionItems b c → sameButActionItems a c.
Proof.
  unfold sameButActionItems. intros (?&?&?&?&?&?) (?&?&?&?&?&?).
  split_and!; congruence.
Qed.

(** One request: either nothing happens, or the first sub-step with the
    target id gets one more action item. *)
Lemma pushNewActionItem_run (L : list SubStep.t) (item : NewActionItem.t) w :
  let L1 := result (pushNewActionItem L item) w in
  World.ui (after (pushNewActionItem L item) w) = World.ui w ∧
  calls (pushNewActionItem L item) w = [] ∧
  match firstWithId (NewActionItem.targetSubStepId item) L with
  | None => L1 = L
  | Some i =>
      ∃ target actionItem,
        L !! i = Some target ∧
        ActionItem.text actionItem = NewActionItem.title item ∧
        ActionItem.completed actionItem = false ∧
        L1 = <[i := SubStep.withActionItems target
                      (default [] (SubStep.actionItems target) ++ [actionItem])]> L
  end.
Proof.
  observe. unfold pushNewActionItem, firstWithId.
  destruct (list_find _ L) as [[i target]|] eqn:Hfind; simpl.
  - destruct (generateUniqueId "action" (World.idGen w)) as [id g]. simpl.
    split_and!; try done.
    apply list_find_Some in Hfind as (Hi & _ & _).
    eexists target, _. split_and!; [done| | |done]; done.
  - done.
Qed.

Lemma requestsFor_cons j (L : list SubStep.t) (r : NewActionItem.t) requests :
  requestsFor j L (r :: requests) =
    if bool_decide (firstWithId (NewActionItem.targetSubStepId r) L = Some j)
    then r :: requestsFor j L requests
    else requestsFor j L requests.
Proof.
  unfold requestsFor. rewrite filter_cons.
  case_bool_decide; [by rewrite decide_True | by rewrite decide_False].
Qed.

Lemma requestsFor_ids j (L1 L2 : list SubStep.t) requests :
  SubStep.id <$> L1 = SubStep.id <$> L2 →
  requestsFor j L1 requests = requestsFor j L2 requests.
Proof.
  intros Hids. unfold requestsFor. apply list_filter_iff. intros r.
  by rewrite (firstWithId_ids _ L1 L2 Hids).
Qed.

(** All requests: every sub-step of the list keeps its place and its other
    properties, and gains, after the action items it had, one action item
    per request that reaches it, in the order of the requests. *)
Lemma forEach_push (requests : list NewActionItem.t) : ∀ (L : list SubStep.t) w,
  let R := result (forEach pushNewActionItem requests L) w in
  World.ui (after (forEach pushNewActionItem requests L) w) = World.ui w ∧
  calls (forEach pushNewActionItem requests L) w = [] ∧
  SubStep.id <$> R = SubStep.id <$> L ∧
  ∀ j ss, L !! j = Some ss →
    ∃ ss' added,
      R !! j = Some ss' ∧
      sameButActionItems ss' ss ∧
      default [] (SubStep.actionItems ss') =
        default [] (SubStep.actionItems ss) ++ added ∧
      ActionItem.text <$> added = NewActionItem.title <$> requestsFor j L requests ∧
      Forall (λ ai, ActionItem.completed ai = false) added ∧
      (requestsFor j L requests = [] → ss' = ss).
Proof.
  induction requests as [|r requests IH]; intros L w.
  - simpl. split_and!; try done.
    intros j ss Hj. exists ss, []. rewrite app_nil_r.
    split_and!; done.
  - destruct (pushNewActionItem_run L r w) as (Hui1 & Hmade1 & Hstep).
    revert Hui1 Hmade1 Hstep. observe. simpl.
    destruct (run (pushNewActionItem L r) w) as [[L1 w1] made1]. simpl.
    intros Hui1 -> Hstep.
    specialize (IH L1 w1). revert IH. observe.
    destruct (run (forEach pushNewActionItem requests L1) w1) as [[R w2] made2]. simpl.
    intros (Hui2 & -> & Hids & Hsteps).
    assert (Hids1 : SubStep.id <$> L1 = SubStep.id <$> L).
    { destruct (firstWithId _ L) as [i|]; [|by subst].
      destruct Hstep as (target & ai & Hi & _ & _ & ->).
      rewrite list_fmap_insert. simpl. by rewrite list_insert_id by (by rewrite list_lookup_fmap, Hi). }
    split_and!; [congruence|done|congruence|].
    intros j ss Hj. rewrite requestsFor_cons.
    destruct (firstWithId (NewActionItem.targetSubStepId r) L) as [i|] eqn:Hfirst.
    + destruct Hstep as (target & ai & Hi & Htext & Hcompleted & ->).
      destruct (decide (i = j)) as [->|Hij].
      * rewrite bool_decide_eq_true_2 by done.
        assert (target = ss) as -> by congruence.
        destruct (Hsteps j (SubStep.withActionItems ss
                              (default [] (SubStep.actionItems ss) ++ [ai])))
          as (ss' & added & HR & Hsame & Hitems & Htexts & Hall & _).
        { apply list_lookup_insert_eq. by eapply lookup_lt_Some. }
        exists ss', (ai :: added). split_and!.
        -- done.
        -- eapply sameButActionItems_trans; [done|]. by repeat split.
        -- rewrite Hitems. simpl. by rewrite <- app_assoc.
        -- rewrite fmap_cons, Htexts, Htext, fmap_cons. f_equal.
           f_equal. by apply requestsFor_ids.
        -- by constructor.
        -- done.
      * rewrite bool_decide_eq_false_2 by congruence.
        destruct (Hsteps j ss) as (ss' & added & HR & Hsame & Hitems & Htexts & Hall & Hnone).
        { by rewrite list_lookup_insert_ne. }
        exists ss', added. split_and!; try done.
        -- rewrite Htexts. f_equal. by apply requestsFor_ids.
        -- intros Hempty. apply Hnone. by rewrite (requestsFor_ids j _ L).
    + subst L1. rewrite bool_decide_eq_false_2 by done.
      apply Hsteps, Hj.
Qed.

(** C4.  [handleProposalConfirm] puts the new sub-steps after all existing
    ones, in the order of the proposals; the i-th of them (from 0) gets the
    title and description of its proposal, position
    (50 + (i mod 3) * 300, 50 + (i / 3) * 200), no attachments and, to start
    with, no action items.  Every request for a new action item whose target
    id is the id of some sub-step of the combined list adds an action item
    with its title and [completed = false] at the end of the action items of
    the first such sub-step; a request whose target id is the id of no
    sub-step adds nothing anywhere and raises nothing.  Nothing else in the
    buffer changes, and the review modal is closed. *)
Theorem proposal_confirm_layout_and_targets (additions : Additions.t) w :
  let existing := Details.subSteps (buffer w) in
  let proposals := Additions.newSubSteps additions in
  let requests := Additions.newActionItems additions in
  let w' := after (handleProposalConfirm additions) w in
  let confirmed := Details.subSteps (buffer w') in
  length confirmed = length existing + length proposals ∧
  (∀ i ss, existing !! i = Some ss →
     ∃ ss' added,
       confirmed !! i = Some ss' ∧
       sameButActionItems ss' ss ∧
       default [] (SubStep.actionItems ss') =
         default [] (SubStep.actionItems ss) ++ added ∧
       ActionItem.text <$> added =
         NewActionItem.title <$> requestsFor i confirmed requests ∧
       Forall (λ ai, ActionItem.completed ai = false) added ∧
       (requestsFor i confirmed requests = [] → ss' = ss)) ∧
  (∀ i proposal, proposals !! i = Some proposal →
     ∃ ss' added,
       confirmed !! (length existing + i) = Some ss' ∧
       SubStep.text ss' = Proposal.title proposal ∧
       SubStep.notes ss' = Some (Proposal.description proposal) ∧
       SubStep.position ss' =
         Some {| Position.x := 50 + (Z.of_nat i `mod` 3) * 300;
                 Position.y := 50 + (Z.of_nat i `div` 3) * 200 |} ∧
       SubStep.attachments ss' = Some [] ∧
       default [] (SubStep.actionItems ss') = added ∧
       ActionItem.text <$> added =
         NewActionItem.title
           <$> requestsFor (length existing + i) confirmed requests ∧
       Forall (λ ai, ActionItem.completed ai = false) added) ∧
  (∀ r j, firstWithId (NewActionItem.targetSubStepId r) confirmed = None →
     r ∉ requestsFor j confirmed requests) ∧
  calls (handleProposalConfirm additions) w = [] ∧
  sameButSubSteps (buffer w') (buffer w) ∧
  ModalState.showProposalReview (World.ui w') = false.
Proof.
  intros existing proposals requests w' confirmed.
  destruct (newSubSteps_layout proposals 0 w) as (Hui1 & Hmade1 & Hlen1 & Hnews).
  revert Hui1 Hmade1 Hlen1 Hnews.
  subst confirmed w' existing. observe. unfold handleProposalConfirm. simpl.
  fold proposals requests.
  set (existing := Details.subSteps (ModalState.localDetails (World.ui w))).
  destruct (run (mapWithIndex newSubStepOfProposal 0 proposals) w)
    as [[news w1] made1]. simpl.
  intros Hui1 -> Hlen1 Hnews.
  destruct (forEach_push requests (existing ++ news) w1)
    as (Hui2 & Hmade2 & Hids & Hsteps).
  revert Hui2 Hmade2 Hids Hsteps. observe.
  destruct (run (forEach pushNewActionItem requests (existing ++ news)) w1)
    as [[R w2] made2]. simpl.
  intros Hui2 -> Hids Hsteps.
  assert (Hreq : ∀ j, requestsFor j R requests = requestsFor j (existing ++ news) requests).
  { intros j. by apply requestsFor_ids. }
  split_and!.
  - apply (f_equal length) in Hids. rewrite !length_fmap, length_app in Hids.
    by rewrite Hids, Hlen1.
  - intros i ss Hi.
    destruct (Hsteps i ss) as (ss' & added & ?&?&?&?&?&?).
    { by apply lookup_app_l_Some. }
    exists ss', added. rewrite Hreq. by split_and!.
  - intros i proposal Hi.
    destruct (Hnews i proposal Hi) as (ss & Hss & Htext & Hnotes & Hpos & Hitems & Hatt & _).
    destruct (Hsteps (length existing + i) ss)
      as (ss' & added & HR & Hsame & Hadded & Htexts & Hall & _).
    { rewrite lookup_app_r by lia. by replace (length existing + i - length existing) with i by lia. }
    destruct Hsame as (_ & Htext' & Hnotes' & Hpos' & Hatt' & _).
    exists ss', added. rewrite Hreq. rewrite Hitems in Hadded. simpl in Hadded.
    split_and!; try done; congruence.
  - intros r j Hnone Hin. unfold requestsFor in Hin.
    apply list_elem_of_filter in Hin as [Hfirst _]. congruence.
  - done.
  - rewrite Hui2, Hui1. fold (buffer w). apply spread_ofSubSteps.
  - done.
Qed.
End Properties.

(** * The theorems on the sample data *)

Section Witnesses.
Import Sample.
#[local] Existing Instance Sample.schema.
#[local] Existing Instance Sample.host.

Lemma initial_buffer_witness :
  Details.subStepCanvasSize (ModalState.localDetails (initialState bareTask)) =
    Some {| CanvasSize.width := 1200; CanvasSize.height := 800 |} ∧
  ModalState.localDetails (initialState task) = details.
Proof.
  split.
  - apply (proj1 (initial_buffer bareTask) eq_refl).
  - apply (proj2 (initial_buffer task) details eq_refl).
Defined.

Lemma autosave_iff_serializations_differ_witness :
  (elapse AUTOSAVE_DELAY (autosaveEffect task detailsEdited None)).2 =
    [OnUpdateTask "t1" detailsEdited] ∧
  (elapse AUTOSAVE_DELAY (autosaveEffect task details None)).2 = [].
Proof.
  split.
  - apply (proj1 (proj2 (autosave_iff_serializations_differ task detailsEdited None))).
    vm_compute. intros Heq. discriminate Heq.
  - apply (proj1 (proj2 (proj2 (autosave_iff_serializations_differ task details None)))).
    reflexivity.
Defined.

Lemma flattened_is_concatenation_witness :
  actionItemTotal details = 2 ∧ completedActionCount details = 1.
Proof.
  destruct (flattened_is_concatenation details) as (_ & Htotal & Hcompleted).
  rewrite Htotal, Hcompleted. split; reflexivity.
Defined.

Lemma substep_remove_and_update_witness :
  Details.subSteps (buffer (after (handleRemoveSubStep (editing task) "s1" true)
                              (opened task))) = [build] ∧
  Details.subSteps (buffer (after (handleUpdateSubStep (editing task) "s9"
                                     (SubStepUpdate.ofText "Ship") )
                              (opened task))) = [design; build] ∧
  ∃ merged,
    Details.subSteps (buffer (after (handleUpdateSubStep (editing task) "s1"
                                       MoreSamples.moved)
                                (opened task))) !! 0 = Some merged ∧
    SubStep.text merged = "Assemble" ∧
    SubStep.position merged = Some {| Position.x := 7; Position.y := 9 |} ∧
    SubStep.notes merged = Some "draft" ∧
    SubStep.id merged = "s1" ∧
    SubStep.rest merged !! "assignee" = Some "aya".
Proof.
  split; [|split].
  - destruct (substep_remove_and_update (editing task) (opened task) "s1"
                (SubStepUpdate.ofText "Ship") eq_refl) as ((Hremoved & _) & _).
    rewrite Hremoved. reflexivity.
  - destruct (substep_remove_and_update (editing task) (opened task) "s9"
                (SubStepUpdate.ofText "Ship") eq_refl) as (_ & _ & Hnone & _).
    apply Hnone. intros ss Hin.
    apply elem_of_cons in Hin as [->|Hin]; [discriminate|].
    apply list_elem_of_singleton in Hin as ->. discriminate.
  - destruct (substep_remove_and_update (editing task) (opened task) "s1"
                MoreSamples.moved eq_refl) as (_ & (_ & Hupdated) & _).
    destruct (Hupdated 0 design eq_refl) as (merged & Hmerged & _ & Hfields).
    destruct (Hfields eq_refl) as (Hid & Htext & Hnotes & Hposition & _ & _ & Hrest).
    exists merged. split; [exact Hmerged|].
    split; [exact Htext|]. split; [exact Hposition|]. split; [exact Hnotes|].
    split; [exact Hid|]. exact (Hrest "assignee").
Defined.

Lemma canvas_drop_moves_only_the_dragged_witness :
  ∃ moved,
    Details.subSteps (buffer (after (handleCanvasDrop (editing task) (Some canvas) drop)
                                dragging)) !! 1 = Some moved ∧
    SubStep.position moved = Some {| Position.x := 290; Position.y := 230 |} ∧
    sameButPosition moved build.
Proof.
  destruct (canvas_drop_moves_only_the_dragged (editing task) dragging canvas drop "s2"
              eq_refl eq_refl ltac:(discriminate)) as (_ & Hall & _).
  destruct (Hall 1 build eq_refl) as (moved & Hmoved & Hposition & Hsame).
  exists moved. split; [exact Hmoved|]. split; [exact Hposition|exact Hsame].
Defined.

Lemma read_only_buffer_is_frozen_witness :
  buffer (after (invokeAll (readOnly task)
                   [RemoveSubStep "s1" true; AddSubStep; SubStepDragStart "s2";
                    CanvasDrop (Some canvas) drop; AttachmentChange (Some photo)])
                (opened task)) = details.
Proof.
  apply (proj1 (read_only_buffer_is_frozen (readOnly task)
                  [RemoveSubStep "s1" true; AddSubStep; SubStepDragStart "s2";
                   CanvasDrop (Some canvas) drop; AttachmentChange (Some photo)]
                  (opened task) eq_refl)).
Defined.

Lemma generate_proposals_outcomes_witness :
  calls (handleGenerateProposals (editing task)) (opened task) =
    [GenerateStepProposals task] ∧
  ModalState.proposalError
    (World.ui (after (handleGenerateProposals_resume
                        (Rejected (ErrorObject "quota exceeded")))
                     (after (handleGenerateProposals (editing task)) (opened task))))
    = Some "quota exceeded".
Proof.
  destruct (generate_proposals_outcomes (editing task) (opened task) eq_refl)
    as ((_ & Hcalls & _) & Hsettled).
  split; [exact Hcalls|].
  destruct (Hsettled (after (handleGenerateProposals (editing task)) (opened task)))
    as (Hrejected & _).
  apply (Hrejected (ErrorObject "quota exceeded")).
Defined.

Lemma generate_slides_branches_witness :
  calls (handleGenerateSlides (editing taskWithDeck)) (opened taskWithDeck) = [] ∧
  ModalState.isGeneratingSlides
    (World.ui (after (handleGenerateSlides (editing taskWithDeck))
                     (opened taskWithDeck))) = false ∧
  calls (handleGenerateSlides (editing task)) (opened task) =
    [GenerateInitialSlideDeck task "ship"].
Proof.
  destruct (generate_slides_branches (editing taskWithDeck) (opened taskWithDeck))
    as (Hdeck & _ & _).
  destruct (Hdeck ["title"; "status"] eq_refl) as (_ & Hcalls & _ & _ & _ & Hidle).
  destruct (generate_slides_branches (editing task) (opened task))
    as (_ & Hnone & _).
  destruct (Hnone eq_refl) as (_ & Hrequest & _).
  split; [exact Hcalls|]. split; [exact (proj2 (Hidle eq_refl))|exact Hrequest].
Defined.

Lemma attachment_size_limit_witness :
  result (handleAttachmentChange (editing task) (Some video)) (opened task) = None ∧
  calls (handleAttachmentChange (editing task) (Some photo)) (opened task) =
    [ReadAsDataURL photo; ClearFileInput].
Proof.
  split.
  - apply (proj1 (attachment_size_limit (editing task) (opened task) video eq_refl)).
    reflexivity.
  - destruct (attachment_size_limit (editing task) (opened task) photo eq_refl)
      as (_ & _ & _ & _ & Hread & _).
    apply Hread. discriminate.
Defined.

Lemma proposal_confirm_layout_and_targets_witness :
  let confirmed :=
    Details.subSteps (buffer (after (handleProposalConfirm additions) (opened task))) in
  length confirmed = 6 ∧
  (∃ ss' added,
     confirmed !! 1 = Some ss' ∧
     default [] (SubStep.actionItems ss') = added ∧
     ActionItem.text <$> added = ["compile"; "link"]) ∧
  (∃ ss',
     confirmed !! 5 = Some ss' ∧
     SubStep.position ss' = Some {| Position.x := 50; Position.y := 250 |}).
Proof.
  destruct (proposal_confirm_layout_and_targets additions (opened task))
    as (Hlength & Hexisting & Hnew & _).
  split; [exact Hlength|]. split.
  - destruct (Hexisting 1 build eq_refl)
      as (ss' & added & Hss' & _ & Hitems & Htexts & _).
    exists ss', added. split; [exact Hss'|]. split; [exact Hitems|].
    rewrite Htexts. vm_compute. reflexivity.
  - destruct (Hnew 3 {| Proposal.title := "Measure"; Proposal.description := "usage" |}
                eq_refl)
      as (ss' & added & Hss' & _ & _ & Hposition & _).
    exists ss'. split; [exact Hss'|exact Hposition].
Defined.

(** The guard of [read_only_buffer_is_frozen] is in the eleven handlers
    only.  [handleGenerateSlides] has none, and its button is rendered in
    read-only mode as well: there the buffer does get a deck. *)
Remark slides_are_generated_in_read_only_mode :
  let w1 := after (handleGenerateSlides (readOnly task)) (opened task) in
  calls (handleGenerateSlides (readOnly task)) (opened task) =
    [GenerateInitialSlideDeck task "ship"] ∧
  Details.reportDeck
    (buffer (after (handleGenerateSlides_resume (Fulfilled ["title"])) w1)) =
    Some ["title"].
Proof. split; reflexivity. Qed.

End Witnesses.

(** * Further properties *)

Section MoreProperties.
Context `{Host}.
Implicit Types (w : World.t) (props : Props.t) (d : Details.t).

(** ** What is displayed *)

Lemma flattened_concat d :
  flattenedActionItems d = concat (itemsOf <$> Details.subSteps d).
Proof. unfold flattenedActionItems. by rewrite flatten_from. Qed.

Lemma actionItemTotal_count d :
  actionItemTotal d = actionItemCount (Details.subSteps d).
Proof.
  unfold actionItemTotal, actionItemCount.
  rewrite flattened_concat, length_concat_sum, <- list_fmap_compose. f_equal.
  apply list_fmap_ext. intros i ss _. simpl. unfold itemsOf. by rewrite length_fmap.
Qed.

Lemma elem_of_concat {A} (x : A) (ls : list (list A)) :
  x ∈ concat ls ↔ ∃ l, x ∈ l ∧ l ∈ ls.
Proof.
  induction ls as [|l ls IH]; simpl.
  - split; [by intros ?%elem_of_nil|by intros (l & _ & ?%elem_of_nil)].
  - rewrite elem_of_app, IH. split.
    + intros [Hx|(l' & Hx & Hl')]; [exists l|exists l']; split; try done.
      * by left.
      * by right.
    + intros (l' & Hx & Hl'). apply elem_of_cons in Hl' as [->|Hl'];
        [by left|right; by exists l'].
Qed.

Lemma filter_none {A} (P : A → Prop) `{!∀ x, Decision (P x)} (l : list A) :
  (∀ x, x ∈ l → ¬ P x) → filter P l = [].
Proof.
  induction l as [|a l IH]; intros Hnone; [done|].
  rewrite filter_cons_False by (apply Hnone; left).
  apply IH. intros x Hx. apply Hnone. by right.
Qed.


Lemma elem_of_flattened d (item : FlatItem.t) :
  item ∈ flattenedActionItems d ↔
    FlatItem.subStep item ∈ Details.subSteps d ∧
    FlatItem.actionItem item
      ∈ default [] (SubStep.actionItems (FlatItem.subStep item)).
Proof.
  rewrite flattened_concat, elem_of_concat. split.
  - intros (l & Hitem & Hl).
    apply list_elem_of_fmap in Hl as (ss & -> & Hss).
    unfold itemsOf in Hitem.
    apply list_elem_of_fmap in Hitem as (ai & -> & Hai). by simpl.
  - intros [Hss Hai]. exists (itemsOf (FlatItem.subStep item)). split.
    + unfold itemsOf. apply list_elem_of_fmap.
      exists (FlatItem.actionItem item). split; [by destruct item|done].
    + apply list_elem_of_fmap. by eexists.
Qed.

(** X13.  An entry is in [flattenedActionItems] exactly when its sub-step is
    a sub-step of the buffer and its action item is one of that sub-step's
    action items; the completed count never exceeds the total. *)
Theorem flattened_entries_belong d (item : FlatItem.t) :
  (item ∈ flattenedActionItems d ↔
     FlatItem.subStep item ∈ Details.subSteps d ∧
     FlatItem.actionItem item
       ∈ default [] (SubStep.actionItems (FlatItem.subStep item))) ∧
  completedActionCount d ≤ actionItemTotal d.
Proof.
  split; [apply elem_of_flattened|].
  unfold completedActionCount, actionItemTotal. apply length_filter.
Qed.

(** X14.  The "recent activity" list has at most three entries, taken in
    order from [flattenedActionItems]; each is completed and carries a
    non-empty [completedDate].  So items that are completed without a date
    are not listed, and when the "no completed action item" line is shown
    the list is empty. *)
Theorem recent_activity_is_short d :
  length (recentActivity d) ≤ 3 ∧
  recentActivity d `sublist_of` flattenedActionItems d ∧
  (∀ item, item ∈ recentActivity d →
     ActionItem.completed (FlatItem.actionItem item) = true ∧
     ∃ date, ActionItem.completedDate (FlatItem.actionItem item) = Some date ∧
             date ≠ "") ∧
  ((∀ item, item ∈ flattenedActionItems d →
      ActionItem.completedDate (FlatItem.actionItem item) = None) →
     recentActivity d = []) ∧
  (showsNoCompletedLine d = true →
     recentActivity d = [] ∧
     ∀ item, item ∈ flattenedActionItems d →
       ActionItem.completed (FlatItem.actionItem item) = false).
Proof.
  unfold recentActivity. split_and!.
  - rewrite length_take. lia.
  - etrans; [apply sublist_take|apply sublist_filter].
  - intros item Hin. apply elem_of_take in Hin as (i & Hi & _).
    apply list_elem_of_lookup_2, list_elem_of_filter in Hi as [Hkeep _].
    apply andb_true_iff in Hkeep as [Hdone Hdate]. split; [done|].
    destruct (ActionItem.completedDate (FlatItem.actionItem item)) as [date|];
      [|done].
    exists date. split; [done|]. simpl in Hdate.
    apply negb_true_iff, bool_decide_eq_false in Hdate. done.
  - intros Hnone.
    assert (Hfilter : filter
       (λ item,
          ActionItem.completed (FlatItem.actionItem item)
          && truthy (ActionItem.completedDate (FlatItem.actionItem item)) = true)
       (flattenedActionItems d) = []).
    { apply filter_none. intros item Hin Hkeep.
      rewrite (Hnone item Hin), andb_false_r in Hkeep. done. }
    by rewrite Hfilter.
  - unfold showsNoCompletedLine, completedActionCount. intros Hzero.
    apply bool_decide_eq_true, length_zero_iff_nil in Hzero.
    assert (Hall : ∀ item, item ∈ flattenedActionItems d →
              ActionItem.completed (FlatItem.actionItem item) = false).
    { intros item Hin.
      destruct (ActionItem.completed (FlatItem.actionItem item)) eqn:Hc; [|done].
      assert (Hin' : item ∈ filter
         (λ item, ActionItem.completed (FlatItem.actionItem item) = true)
         (flattenedActionItems d)) by by apply list_elem_of_filter.
      rewrite Hzero in Hin'. by apply elem_of_nil in Hin'. }
    split; [|done].
    assert (Hfilter : filter
       (λ item,
          ActionItem.completed (FlatItem.actionItem item)
          && truthy (ActionItem.completedDate (FlatItem.actionItem item)) = true)
       (flattenedActionItems d) = []).
    { apply filter_none. intros item Hin Hkeep.
      rewrite (Hall item Hin) in Hkeep. done. }
    by rewrite Hfilter.
Qed.

(** ** Merging, resetting and saving *)

Lemma spread_twice d (u : DetailsUpdate.t) :
  Details.spread (Details.spread d u) u = Details.spread d u.
Proof.
  destruct d, u as [s r p n a dc c rd rs]. unfold Details.spread. simpl.
  f_equal;
    [by destruct s|by destruct r|by destruct p|by destruct n|by destruct a
    |by destruct dc|by destruct c|by destruct rd|].
  by rewrite (assoc_L (∪)), (idemp_L (∪)).
Qed.

(** X9.  [updateLocalDetails] merges into the latest buffer: the same update
    twice is the update once, of two updates of [subSteps] the later one
    stays, and an update of [subSteps] commutes with one of [attachments] or
    of [reportDeck]. *)
Theorem local_updates_compose (u : DetailsUpdate.t) (l1 l2 : list SubStep.t)
    (a : list Attachment.t) (deck : SlideDeck) w :
  buffer (after (updateLocalDetails u ;; updateLocalDetails u) w)
    = buffer (after (updateLocalDetails u) w) ∧
  buffer (after (updateLocalDetails (DetailsUpdate.ofSubSteps l1) ;;
                 updateLocalDetails (DetailsUpdate.ofSubSteps l2)) w)
    = buffer (after (updateLocalDetails (DetailsUpdate.ofSubSteps l2)) w) ∧
  buffer (after (updateLocalDetails (DetailsUpdate.ofSubSteps l1) ;;
                 updateLocalDetails (DetailsUpdate.ofAttachments a)) w)
    = buffer (after (updateLocalDetails (DetailsUpdate.ofAttachments a) ;;
                     updateLocalDetails (DetailsUpdate.ofSubSteps l1)) w) ∧
  buffer (after (updateLocalDetails (DetailsUpdate.ofSubSteps l1) ;;
                 updateLocalDetails (DetailsUpdate.ofReportDeck deck)) w)
    = buffer (after (updateLocalDetails (DetailsUpdate.ofReportDeck deck) ;;
                     updateLocalDetails (DetailsUpdate.ofSubSteps l1)) w).
Proof.
  observe. simpl. split_and!.
  - apply spread_twice.
  - unfold Details.spread. simpl. by rewrite !(left_id_L ∅ (∪)).
  - done.
  - done.
Qed.

(** X10.  When the effect on [extendedDetails] has replaced the buffer (and
    likewise right after the modal has opened), buffer and persisted details
    are the same value: the autosave armed by that render makes no call,
    however long one waits. *)
Theorem reset_is_not_saved (task : ProjectTask.t) w (previous : option Timer) (ms : nat) :
  let w' := after (resetLocalDetails task) w in
  buffer w' = extendedDetails task ∧
  autosaveTimeout (ProjectTask.id task) (buffer w') (extendedDetails task) = [] ∧
  autosaveTrace [Rendered task (buffer w'); Passed ms] previous = [] ∧
  autosaveTrace
    [Rendered task (ModalState.localDetails (initialState task)); Passed ms] None = [].
Proof.
  assert (Hquiet : ∀ previous,
    autosaveTrace [Rendered task (extendedDetails task); Passed ms] previous = []).
  { intros p. simpl. unfold autosaveEffect.
    cbn [elapse remaining timerTaskId timerLocal timerExtended].
    case_bool_decide; simpl; [|done].
    unfold autosaveTimeout. rewrite bool_decide_eq_false_2; [done|]. by intros []. }
  observe. unfold resetLocalDetails. cbn [setLocalDetails modify run World.ui ModalState.localDetails].
  split_and!; [done| |apply Hquiet|apply Hquiet].
  unfold autosaveTimeout. rewrite bool_decide_eq_false_2; [done|]. by intros [].
Qed.

Lemma autosaveTimeout_call taskId (localDetails extended : Details.t) (e : Effect) :
  e ∈ autosaveTimeout taskId localDetails extended →
  e = OnUpdateTask taskId localDetails ∧
  JSON_stringify localDetails ≠ JSON_stringify extended.
Proof.
  unfold autosaveTimeout, saveChanges. case_bool_decide as Hne.
  - by intros ->%list_elem_of_singleton.
  - by intros ?%elem_of_nil.
Qed.

Lemma autosaveTimeout_length taskId (localDetails extended : Details.t) :
  length (autosaveTimeout taskId localDetails extended) ≤ 1.
Proof. unfold autosaveTimeout, saveChanges. case_bool_decide; simpl; lia. Qed.

Lemma autosaveTrace_calls (moments : list Moment) : ∀ (timer : option Timer) (e : Effect),
  e ∈ autosaveTrace moments timer →
  (∃ task localDetails,
     Rendered task localDetails ∈ moments ∧
     e = OnUpdateTask (ProjectTask.id task) localDetails ∧
     JSON_stringify localDetails ≠ JSON_stringify (extendedDetails task)) ∨
  (∃ t, timer = Some t ∧
     e = OnUpdateTask (timerTaskId t) (timerLocal t) ∧
     JSON_stringify (timerLocal t) ≠ JSON_stringify (timerExtended t)).
Proof.
  induction moments as [|m moments IH]; intros timer e He; simpl in He.
  - by apply elem_of_nil in He.
  - destruct m as [task localDetails|ms].
    + left. destruct (IH _ e He) as [(task' & d' & Hin & Hrest)|(t & Ht & He' & Hne)].
      * exists task', d'. split; [by right|done].
      * exists task, localDetails. unfold autosaveEffect in Ht.
        injection Ht as <-. split; [by left|done].
    + apply elem_of_app in He as [He|He].
      * right. destruct timer as [t|]; simpl in He; [|by apply elem_of_nil in He].
        case_bool_decide; simpl in He; [|by apply elem_of_nil in He].
        exists t. split; [done|]. by apply autosaveTimeout_call.
      * destruct (IH _ e He) as [(task' & d' & Hin & Hrest)|(t' & Ht' & He' & Hne)].
        -- left. exists task', d'. split; [by right|done].
        -- right. destruct timer as [t|]; simpl in Ht'; [|done].
           case_bool_decide; simpl in Ht'; [done|].
           injection Ht' as <-. by exists t.
Qed.

Lemma autosaveTrace_length (moments : list Moment) : ∀ (timer : option Timer),
  length (autosaveTrace moments timer)
  ≤ match timer with Some _ => 1 | None => 0 end
    + length (filter (λ m, isRendered m = true) moments).
Proof.
  induction moments as [|m moments IH]; intros timer; simpl.
  - lia.
  - destruct m as [task localDetails|ms].
    + rewrite filter_cons_True by done. simpl.
      specialize (IH (autosaveEffect task localDetails timer)). simpl in IH. lia.
    + rewrite filter_cons_False by done. rewrite length_app.
      destruct timer as [t|]; simpl.
      * case_bool_decide; simpl.
        -- specialize (IH None). simpl in IH.
           pose proof (autosaveTimeout_length (timerTaskId t) (timerLocal t) (timerExtended t)).
           lia.
        -- apply (IH (Some _)).
      * apply (IH None).
Qed.

(** X11.  Over any sequence of renders and waits, starting with no timer
    armed, every call of the autosave is [onUpdateTask] with the id of a task
    and a buffer that were rendered together, the buffer serializing
    differently from that task's details; and there are at most as many
    calls as renders. *)
Theorem autosave_saves_only_rendered_buffers (moments : list Moment) :
  let saved := autosaveTrace moments None in
  (∀ e, e ∈ saved →
     ∃ task localDetails,
       Rendered task localDetails ∈ moments ∧
       e = OnUpdateTask (ProjectTask.id task) localDetails ∧
       JSON_stringify localDetails ≠ JSON_stringify (extendedDetails task)) ∧
  length saved ≤ length (filter (λ m, isRendered m = true) moments).
Proof.
  split.
  - intros e He. destruct (autosaveTrace_calls moments None e He) as [?|(t & ? & _)]; done.
  - apply (autosaveTrace_length moments None).
Qed.

(** X12.  Debounce: a render that comes before the 1000 ms are over discards
    the pending save, so that only the later buffer is compared and saved;
    and a timer fires once, further waiting saves nothing more. *)
Theorem autosave_is_debounced (task : ProjectTask.t) (first second : Details.t)
    (previous : option Timer) (early late : nat) :
  early < AUTOSAVE_DELAY →
  AUTOSAVE_DELAY ≤ late →
  autosaveTrace [Rendered task first; Passed early; Rendered task second; Passed late]
                previous
    = autosaveTimeout (ProjectTask.id task) second (extendedDetails task) ∧
  autosaveTrace [Rendered task first; Passed late; Passed late] previous
    = autosaveTimeout (ProjectTask.id task) first (extendedDetails task).
Proof.
  intros Hearly Hlate. simpl. unfold autosaveEffect.
  cbn [elapse remaining timerTaskId timerLocal timerExtended].
  rewrite (bool_decide_eq_false_2 (AUTOSAVE_DELAY ≤ early)) by (by apply Nat.lt_nge).
  rewrite (bool_decide_eq_true_2 (AUTOSAVE_DELAY ≤ late)) by done.
  cbn [fst snd elapse]. by rewrite !app_nil_r.
Qed.
(** ** Adding and removing *)

Lemma handleAddSubStep_buffer props w :
  Props.canEdit props = true →
  let w' := after (handleAddSubStep props) w in
  Details.subSteps (buffer w') =
    Details.subSteps (buffer w)
    ++ [blankSubStep (generateUniqueId "substep" (World.idGen w)).1] ∧
  sameButSubSteps (buffer w') (buffer w) ∧
  World.idGen w' = (generateUniqueId "substep" (World.idGen w)).2.
Proof.
  intros Hedit. observe. unfold handleAddSubStep. rewrite Hedit. simpl.
  destruct (generateUniqueId "substep" (World.idGen w)) as [id g]. simpl.
  split; [done|]. split; [|done]. apply spread_ofSubSteps.
Qed.

Lemma filter_app_fresh (id : string) (l : list SubStep.t) :
  filter (λ ss, SubStep.id ss ≠ id) (l ++ [blankSubStep id])
  = filter (λ ss, SubStep.id ss ≠ id) l.
Proof.
  rewrite filter_app, filter_cons_False, filter_nil, app_nil_r; [done|].
  simpl. by intros [].
Qed.

(** X1.  In edit mode [handleAddSubStep] appends one sub-step, with the id
    handed out by [generateUniqueId], the default text, empty notes, position
    (50, 50) and no action items or attachments, and keeps the rest of the
    buffer.  Removing that id afterwards leaves the sub-steps that were
    there before and have another id: all of them when the id is new. *)
Theorem add_substep_then_remove props w :
  Props.canEdit props = true →
  let id := (generateUniqueId "substep" (World.idGen w)).1 in
  let w1 := after (handleAddSubStep props) w in
  let w2 := after (handleRemoveSubStep props id true) w1 in
  Details.subSteps (buffer w1) = Details.subSteps (buffer w) ++ [blankSubStep id] ∧
  sameButSubSteps (buffer w1) (buffer w) ∧
  Details.subSteps (buffer w2)
    = filter (λ ss, SubStep.id ss ≠ id) (Details.subSteps (buffer w)) ∧
  (id ∉ subStepIds w → Details.subSteps (buffer w2) = Details.subSteps (buffer w)).
Proof.
  intros Hedit id w1 w2.
  destruct (handleAddSubStep_buffer props w Hedit) as (Hadd & Hsame & _).
  destruct (handleRemoveSubStep_buffer props w1 id Hedit) as (Hremove & _).
  cbv zeta in Hadd, Hremove. fold w1 in Hadd. fold id in Hadd. fold w2 in Hremove.
  assert (Hback : Details.subSteps (buffer w2)
            = filter (λ ss, SubStep.id ss ≠ id) (Details.subSteps (buffer w))).
  { by rewrite Hremove, Hadd, filter_app_fresh. }
  split_and!; try done.
  intros Hfresh. rewrite Hback. apply filter_nothing_to_remove.
  intros ss Hss Heq. apply Hfresh. unfold subStepIds.
  apply list_elem_of_fmap. by exists ss.
Qed.

Lemma actionItemCount_cons (ss : SubStep.t) (l : list SubStep.t) :
  actionItemCount (ss :: l)
  = length (default [] (SubStep.actionItems ss)) + actionItemCount l.
Proof. done. Qed.

Lemma handleAddActionItem_buffer props w subStepId :
  Props.canEdit props = true →
  let w' := after (handleAddActionItem props subStepId) w in
  let newActionItem :=
    {| ActionItem.id := (generateUniqueId "action" (World.idGen w)).1;
       ActionItem.text := "新しいアクションアイテム";
       ActionItem.completed := false;
       ActionItem.completedDate := None;
       ActionItem.rest := ∅ |} in
  Details.subSteps (buffer w') =
    ((λ ss, if bool_decide (SubStep.id ss = subStepId)
            then SubStep.withActionItems ss
                   (default [] (SubStep.actionItems ss) ++ [newActionItem])
            else ss)
     <$> Details.subSteps (buffer w)) ∧
  sameButSubSteps (buffer w') (buffer w) ∧
  World.idGen w' = (generateUniqueId "action" (World.idGen w)).2.
Proof.
  intros Hedit. observe. unfold handleAddActionItem. rewrite Hedit. simpl.
  destruct (generateUniqueId "action" (World.idGen w)) as [id g]. simpl.
  split; [done|]. split; [|done]. apply spread_ofSubSteps.
Qed.

Lemma actionItemCount_push (subStepId : string) (ai : ActionItem.t)
    (l : list SubStep.t) :
  actionItemCount
    ((λ ss, if bool_decide (SubStep.id ss = subStepId)
            then SubStep.withActionItems ss (default [] (SubStep.actionItems ss) ++ [ai])
            else ss) <$> l)
  = actionItemCount l + length (filter (λ ss, SubStep.id ss = subStepId) l).
Proof.
  induction l as [|ss l IH]; [done|].
  rewrite fmap_cons, !actionItemCount_cons, IH, filter_cons.
  case_bool_decide as Hid.
  - rewrite decide_True by done. simpl. rewrite length_app. simpl. lia.
  - rewrite decide_False by done. lia.
Qed.

(** X2.  In edit mode [handleAddActionItem] adds one action item to each
    sub-step with the given id and to no other: the displayed total grows by
    the number of such sub-steps, the sub-step ids and the rest of the buffer
    stay.  When no sub-step has the id the sub-steps are unchanged, yet an id
    has been drawn from [generateUniqueId]. *)
Theorem add_action_item_counts props w subStepId :
  Props.canEdit props = true →
  let w' := after (handleAddActionItem props subStepId) w in
  actionItemTotal (buffer w') =
    actionItemTotal (buffer w)
    + length (filter (λ ss, SubStep.id ss = subStepId) (Details.subSteps (buffer w))) ∧
  subStepIds w' = subStepIds w ∧
  sameButSubSteps (buffer w') (buffer w) ∧
  (subStepId ∉ subStepIds w →
     Details.subSteps (buffer w') = Details.subSteps (buffer w)) ∧
  World.idGen w' = (generateUniqueId "action" (World.idGen w)).2.
Proof.
  intros Hedit w'.
  destruct (handleAddActionItem_buffer props w subStepId Hedit) as (Hsub & Hsame & Hgen).
  cbv zeta in Hsub, Hsame, Hgen. fold w' in Hsub, Hsame, Hgen.
  split_and!; try done.
  - rewrite !actionItemTotal_count, Hsub. apply actionItemCount_push.
  - unfold subStepIds. rewrite Hsub, <- list_fmap_compose.
    apply list_fmap_ext. intros i ss _. simpl. by case_bool_decide.
  - intros Hnone. rewrite Hsub. apply fmap_nothing_to_update.
    intros ss Hss Heq. apply Hnone. unfold subStepIds.
    apply list_elem_of_fmap. by exists ss.
Qed.

(** ** Action items *)

Lemma handleUpdateActionItem_buffer props w subStepId actionItemId updates :
  Props.canEdit props = true →
  let w' := after (handleUpdateActionItem props subStepId actionItemId updates) w in
  Details.subSteps (buffer w') =
    ((λ ss, if bool_decide (SubStep.id ss = subStepId)
            then SubStep.withActionItems ss
                   (default []
                      (fmap (M := list)
                         (λ ai, if bool_decide (ActionItem.id ai = actionItemId)
                                then ActionItem.spread ai updates else ai)
                       <$> SubStep.actionItems ss))
            else ss)
     <$> Details.subSteps (buffer w)) ∧
  sameButSubSteps (buffer w') (buffer w).
Proof.
  intros Hedit. observe. unfold handleUpdateActionItem. rewrite Hedit. simpl.
  apply spread_ofSubSteps.
Qed.

Lemma handleRemoveActionItem_buffer props w subStepId actionItemId :
  Props.canEdit props = true →
  let w' := after (handleRemoveActionItem props subStepId actionItemId true) w in
  Details.subSteps (buffer w') =
    ((λ ss, if bool_decide (SubStep.id ss = subStepId)
            then SubStep.withActionItems ss
                   (default []
                      (filter (λ ai, ActionItem.id ai ≠ actionItemId)
                       <$> SubStep.actionItems ss))
            else ss)
     <$> Details.subSteps (buffer w)) ∧
  sameButSubSteps (buffer w') (buffer w).
Proof.
  intros Hedit. observe. unfold handleRemoveActionItem. rewrite Hedit. simpl.
  apply spread_ofSubSteps.
Qed.

Lemma actionItemCount_shrinks (f : SubStep.t → SubStep.t) (l : list SubStep.t) :
  (∀ ss, length (default [] (SubStep.actionItems (f ss)))
         ≤ length (default [] (SubStep.actionItems ss))) →
  actionItemCount (f <$> l) ≤ actionItemCount l.
Proof.
  intros Hf. induction l as [|ss l IH]; [done|].
  rewrite fmap_cons, !actionItemCount_cons. specialize (Hf ss). lia.
Qed.

Lemma actionItem_spread_is_merged (ai : ActionItem.t) (updates : ActionItemUpdate.t) :
  mergedActionItem ai updates (ActionItem.spread ai updates).
Proof.
  unfold mergedActionItem, ActionItem.spread. simpl.
  split_and!; try apply givenOrKept_default. apply restGivenOrKept_union.
Qed.

(** X3.  In edit mode [handleUpdateActionItem] changes neither the number
    of action items nor the sub-step ids nor the rest of the buffer.  A
    sub-step with another id is untouched.  In a sub-step with the given id
    the action items keep their number and order (a missing [actionItems]
    becomes the empty list); an action item with another id is untouched,
    and in one with the given id each property that the update gives takes
    the value given and each property it does not give keeps its value. *)
Theorem update_action_item_keeps_shape props w subStepId actionItemId updates :
  Props.canEdit props = true →
  let w' := after (handleUpdateActionItem props subStepId actionItemId updates) w in
  actionItemTotal (buffer w') = actionItemTotal (buffer w) ∧
  subStepIds w' = subStepIds w ∧
  sameButSubSteps (buffer w') (buffer w) ∧
  ∀ j ss, Details.subSteps (buffer w) !! j = Some ss →
    ∃ ss', Details.subSteps (buffer w') !! j = Some ss' ∧
      sameButActionItems ss' ss ∧
      (SubStep.id ss ≠ subStepId → ss' = ss) ∧
      (SubStep.id ss = subStepId →
         ∃ items',
           SubStep.actionItems ss' = Some items' ∧
           length items' = length (default [] (SubStep.actionItems ss)) ∧
           ∀ k ai, default [] (SubStep.actionItems ss) !! k = Some ai →
             ∃ ai', items' !! k = Some ai' ∧
               (ActionItem.id ai ≠ actionItemId → ai' = ai) ∧
               (ActionItem.id ai = actionItemId → mergedActionItem ai updates ai')).
Proof.
  intros Hedit w'.
  destruct (handleUpdateActionItem_buffer props w subStepId actionItemId updates Hedit)
    as (Hsub & Hsame).
  cbv zeta in Hsub, Hsame. fold w' in Hsub, Hsame.
  split_and!; try done.
  - rewrite !actionItemTotal_count, Hsub. unfold actionItemCount.
    rewrite <- list_fmap_compose. f_equal. apply list_fmap_ext. intros i ss _. simpl.
    case_bool_decide; [|done]. simpl.
    destruct (SubStep.actionItems ss); simpl; [by rewrite length_fmap|done].
  - unfold subStepIds. rewrite Hsub, <- list_fmap_compose.
    apply list_fmap_ext. intros i ss _. simpl. by case_bool_decide.
  - intros j ss Hj. rewrite Hsub, list_lookup_fmap, Hj. simpl.
    eexists; split; [done|]. case_bool_decide as Hid.
    + split_and!; try done. intros _. simpl.
      exists ((λ ai, if bool_decide (ActionItem.id ai = actionItemId)
                     then ActionItem.spread ai updates else ai)
              <$> default [] (SubStep.actionItems ss)).
      split_and!.
      * by destruct (SubStep.actionItems ss).
      * apply length_fmap.
      * intros k ai Hk. rewrite list_lookup_fmap, Hk. simpl.
        eexists; split; [done|]. case_bool_decide as Hai.
        -- split; [done|]. intros _. apply actionItem_spread_is_merged.
        -- split; done.
    + split_and!; done.
Qed.

(** X4.  In edit mode, after a confirmed [handleRemoveActionItem] no entry
    of [flattenedActionItems] has both the given sub-step id and the given
    action-item id, every other action item is still listed under its
    sub-step, and the total has not grown.  Without confirmation the buffer
    is unchanged. *)
Theorem removed_action_item_is_gone props w subStepId actionItemId :
  Props.canEdit props = true →
  let w' := after (handleRemoveActionItem props subStepId actionItemId true) w in
  (∀ item, item ∈ flattenedActionItems (buffer w') →
     ¬ (SubStep.id (FlatItem.subStep item) = subStepId ∧
        ActionItem.id (FlatItem.actionItem item) = actionItemId)) ∧
  (∀ ss ai, ss ∈ Details.subSteps (buffer w) →
     ai ∈ default [] (SubStep.actionItems ss) →
     ¬ (SubStep.id ss = subStepId ∧ ActionItem.id ai = actionItemId) →
     ∃ item, item ∈ flattenedActionItems (buffer w') ∧
       FlatItem.actionItem item = ai ∧
       sameButActionItems (FlatItem.subStep item) ss) ∧
  actionItemTotal (buffer w') ≤ actionItemTotal (buffer w) ∧
  subStepIds w' = subStepIds w ∧
  buffer (after (handleRemoveActionItem props subStepId actionItemId false) w)
    = buffer w.
Proof.
  intros Hedit w'.
  destruct (handleRemoveActionItem_buffer props w subStepId actionItemId Hedit)
    as (Hsub & Hsame).
  cbv zeta in Hsub, Hsame. fold w' in Hsub, Hsame.
  split_and!.
  - intros item Hitem [Hss Hai].
    apply elem_of_flattened in Hitem as [Hin Hmember].
    rewrite Hsub in Hin. apply list_elem_of_fmap in Hin as (ss & Heq & _).
    rewrite Heq in Hss, Hmember. destruct (bool_decide (SubStep.id ss = subStepId)) eqn:Hid.
    + simpl in Hmember.
      destruct (SubStep.actionItems ss) as [items|]; simpl in Hmember.
      * by apply list_elem_of_filter in Hmember as [Hne _].
      * by apply elem_of_nil in Hmember.
    + by apply bool_decide_eq_false in Hid.
  - intros ss ai Hss Hai Hkeep.
    set (f := λ ss : SubStep.t,
           if bool_decide (SubStep.id ss = subStepId)
           then SubStep.withActionItems ss
                  (default []
                     (filter (λ ai, ActionItem.id ai ≠ actionItemId)
                      <$> SubStep.actionItems ss))
           else ss) in Hsub.
    exists {| FlatItem.actionItem := ai; FlatItem.subStep := f ss |}.
    split; [|split; [done|]].
    + apply elem_of_flattened. simpl. split.
      * rewrite Hsub. apply list_elem_of_fmap. by exists ss.
      * unfold f. case_bool_decide as Hid; [|done]. simpl.
        destruct (SubStep.actionItems ss) as [items|]; simpl in *; [|done].
        apply list_elem_of_filter. split; [|done]. intros Heq. by apply Hkeep.
    + simpl. unfold f. by case_bool_decide.
  - rewrite !actionItemTotal_count, Hsub. apply actionItemCount_shrinks.
    intros ss. case_bool_decide; [|done]. simpl.
    destruct (SubStep.actionItems ss); simpl; [apply length_filter|done].
  - unfold subStepIds. rewrite Hsub, <- list_fmap_compose.
    apply list_fmap_ext. intros i ss _. simpl. by case_bool_decide.
  - observe. unfold handleRemoveActionItem. rewrite Hedit. done.
Qed.

(** ** Attachments, once more *)

Lemma handleRemoveAttachment_buffer props w attachmentId :
  Props.canEdit props = true →
  let w' := after (handleRemoveAttachment props attachmentId) w in
  Details.attachments (buffer w') =
    Some (filter (λ a, Attachment.id a ≠ attachmentId)
            (default [] (Details.attachments (buffer w)))) ∧
  sameButAttachments (buffer w') (buffer w) ∧
  calls (handleRemoveAttachment props attachmentId) w = [].
Proof.
  intros Hedit. observe. unfold handleRemoveAttachment. rewrite Hedit. simpl.
  split; [|split; [apply spread_ofAttachments|done]].
  by destruct (Details.attachments (ModalState.localDetails (World.ui w))).
Qed.

Lemma sameButAttachments_eq (a b : Details.t) :
  sameButAttachments a b → Details.attachments a = Details.attachments b → a = b.
Proof.
  destruct a, b. unfold sameButAttachments. simpl.
  intros (-> & -> & -> & -> & -> & -> & -> & ->) ->. done.
Qed.

Lemma sameButAttachments_trans (a b c : Details.t) :
  sameButAttachments a b → sameButAttachments b c → sameButAttachments a c.
Proof.
  unfold sameButAttachments. intros (?&?&?&?&?&?&?&?) (?&?&?&?&?&?&?&?).
  split_and!; congruence.
Qed.

(** X5.  In edit mode [handleRemoveAttachment] keeps exactly the attachments
    with another id, in order, and the rest of the buffer; afterwards no
    attachment has the id, a second removal changes nothing, and, unlike the
    removal of a sub-step, no confirmation is asked.  A missing
    [attachments] becomes the empty list. *)
Theorem remove_attachment_filters props w attachmentId :
  Props.canEdit props = true →
  let w1 := after (handleRemoveAttachment props attachmentId) w in
  let w2 := after (handleRemoveAttachment props attachmentId) w1 in
  Details.attachments (buffer w1) =
    Some (filter (λ a, Attachment.id a ≠ attachmentId)
            (default [] (Details.attachments (buffer w)))) ∧
  sameButAttachments (buffer w1) (buffer w) ∧
  (attachmentId ∉ attachmentIds w1) ∧
  buffer w2 = buffer w1 ∧
  calls (handleRemoveAttachment props attachmentId) w = [].
Proof.
  intros Hedit w1 w2.
  destruct (handleRemoveAttachment_buffer props w attachmentId Hedit)
    as (Hatt & Hsame & Hcalls).
  destruct (handleRemoveAttachment_buffer props w1 attachmentId Hedit)
    as (Hatt2 & Hsame2 & _).
  cbv zeta in Hatt, Hsame, Hatt2, Hsame2. fold w1 in Hatt, Hsame. fold w2 in Hatt2, Hsame2.
  split_and!; try done.
  - unfold attachmentIds. rewrite Hatt. simpl.
    intros (a & Hid & Hin)%list_elem_of_fmap.
    by apply list_elem_of_filter in Hin as [Hne _].
  - apply sameButAttachments_eq; [done|].
    rewrite Hatt2, Hatt. simpl. f_equal.
    apply filter_nothing_to_remove. intros a Hin.
    by apply list_elem_of_filter in Hin as [Hne _].
Qed.

Lemma reader_onload_buffer (pending : PendingRead.t) (dataUrl : string) w :
  let w' := after (reader_onload pending (Some dataUrl)) w in
  Details.attachments (buffer w') =
    Some (default [] (PendingRead.attachments pending) ++
          [ {| Attachment.id := (generateUniqueId "attach" (World.idGen w)).1;
               Attachment.name := File.name (PendingRead.file pending);
               Attachment.type := File.type (PendingRead.file pending);
               Attachment.dataUrl := dataUrl |} ]) ∧
  sameButAttachments (buffer w') (buffer w).
Proof.
  observe. unfold reader_onload. simpl.
  destruct (generateUniqueId "attach" (World.idGen w)) as [id g]. simpl.
  apply spread_ofAttachments.
Qed.

(** X6.  In edit mode, selecting a file of at most 5 * 1024 * 1024 bytes
    starts a read and changes nothing yet.  In whatever state the read
    completes, the attachments of the buffer become the attachments held
    when the file was selected, followed by the new attachment under the id
    handed out by [generateUniqueId]: an append to the current attachments
    only if these are still the ones held at selection.  Removing the new id
    afterwards leaves the attachments held at selection that have another id
    (all of them when the id is new); the rest of the buffer is what it was
    when the read completed. *)
Theorem attachment_add_then_remove props w w2 (file : File.t) (dataUrl : string) :
  Props.canEdit props = true →
  (File.size file ≤ 5 * 1024 * 1024)%Z →
  let id := (generateUniqueId "attach" (World.idGen w2)).1 in
  let pending :=
    {| PendingRead.file := file;
       PendingRead.attachments := Details.attachments (buffer w) |} in
  let w3 := after (reader_onload pending (Some dataUrl)) w2 in
  let w4 := after (handleRemoveAttachment props id) w3 in
  run (handleAttachmentChange props (Some file)) w =
    (Some pending, w, [ReadAsDataURL file; ClearFileInput]) ∧
  attachmentIds w3 = attachmentIds w ++ [id] ∧
  (Details.attachments (buffer w2) = Details.attachments (buffer w) →
     attachmentIds w3 = attachmentIds w2 ++ [id]) ∧
  Details.attachments (buffer w4) =
    Some (filter (λ a, Attachment.id a ≠ id)
            (default [] (Details.attachments (buffer w)))) ∧
  sameButAttachments (buffer w4) (buffer w2) ∧
  (id ∉ attachmentIds w →
     Details.attachments (buffer w4)
       = Some (default [] (Details.attachments (buffer w)))).
Proof.
  intros Hedit Hsize id pending w3 w4.
  destruct (reader_onload_buffer pending dataUrl w2) as (Hload & Hsame1).
  cbv zeta in Hload, Hsame1. fold id w3 in Hload, Hsame1.
  destruct (handleRemoveAttachment_buffer props w3 id Hedit) as (Hremove & Hsame2 & _).
  cbv zeta in Hremove, Hsame2. fold w4 in Hremove, Hsame2.
  assert (Hback : Details.attachments (buffer w4) =
            Some (filter (λ a, Attachment.id a ≠ id)
                    (default [] (Details.attachments (buffer w))))).
  { rewrite Hremove, Hload. simpl. f_equal.
    rewrite filter_app, filter_cons_False, filter_nil, app_nil_r; [done|].
    simpl. by intros []. }
  assert (Hids : attachmentIds w3 = attachmentIds w ++ [id]).
  { unfold attachmentIds. rewrite Hload. simpl. by rewrite fmap_app. }
  split_and!.
  - unfold handleAttachmentChange. rewrite Hedit. simpl.
    rewrite bool_decide_eq_false_2; [done|].
    change MAX_FILE_SIZE_BYTES with (5 * 1024 * 1024)%Z. lia.
  - done.
  - intros Hsame. rewrite Hids. unfold attachmentIds. by rewrite Hsame.
  - done.
  - by eapply sameButAttachments_trans.
  - intros Hfresh. rewrite Hback. f_equal. apply filter_nothing_to_remove.
    intros a Hin Heq. apply Hfresh. unfold attachmentIds.
    apply list_elem_of_fmap. by exists a.
Qed.

(** ** Drops *)

Lemma drop_without_drag props w (canvas : option Rect.t) (event : DragEvent.t) :
  truthy (ModalState.draggedSubStep (World.ui w)) = false →
  run (handleCanvasDrop props canvas event) w = (tt, w, []).
Proof.
  intros Hnone. unfold handleCanvasDrop. simpl. rewrite Hnone. simpl.
  by rewrite orb_true_r.
Qed.

Lemma drop_cases props w (canvas : option Rect.t) (event : DragEvent.t) :
  ((Props.canEdit props = false ∨
    truthy (ModalState.draggedSubStep (World.ui w)) = false ∨
    canvas = None) ∧
   run (handleCanvasDrop props canvas event) w = (tt, w, [])) ∨
  (Props.canEdit props = true ∧
   truthy (ModalState.draggedSubStep (World.ui w)) = true ∧
   is_Some canvas ∧
   calls (handleCanvasDrop props canvas event) w = [PreventDefault] ∧
   ModalState.draggedSubStep
     (World.ui (after (handleCanvasDrop props canvas event) w)) = None).
Proof.
  destruct (Props.canEdit props) eqn:Hedit.
  - destruct (truthy (ModalState.draggedSubStep (World.ui w))) eqn:Htruthy.
    + destruct canvas as [rect|].
      * right. split_and!; try done.
        -- observe. unfold handleCanvasDrop, handleUpdateSubStep. simpl.
           rewrite Hedit, Htruthy. simpl.
           destruct (ModalState.draggedSubStep (World.ui w)); [|done].
           simpl. by rewrite ?Hedit.
        -- observe. unfold handleCanvasDrop, handleUpdateSubStep. simpl.
           rewrite Hedit, Htruthy. simpl.
           destruct (ModalState.draggedSubStep (World.ui w)); [|done].
           simpl. by rewrite ?Hedit.
      * left. split; [auto|].
        unfold handleCanvasDrop. simpl. rewrite Hedit, Htruthy. simpl.
        by destruct (ModalState.draggedSubStep (World.ui w)).
    + left. split; [auto|]. by apply drop_without_drag.
  - left. split; [auto|]. unfold handleCanvasDrop. simpl. by rewrite Hedit.
Qed.

(** X7.  [handleCanvasDrop] does nothing at all, not even
    [preventDefault], exactly when [canEdit] is false, or no non-empty id is
    being dragged, or the canvas is not mounted.  Otherwise it calls
    [preventDefault] and clears [draggedSubStep], so that a further drop
    without a new drag start does nothing. *)
Theorem drop_is_ignored_exactly props w (canvas : option Rect.t) (event : DragEvent.t) :
  let w' := after (handleCanvasDrop props canvas event) w in
  (calls (handleCanvasDrop props canvas event) w = [] ↔
     Props.canEdit props = false ∨
     truthy (ModalState.draggedSubStep (World.ui w)) = false ∨
     canvas = None) ∧
  (calls (handleCanvasDrop props canvas event) w = [] → w' = w) ∧
  (calls (handleCanvasDrop props canvas event) w ≠ [] →
     calls (handleCanvasDrop props canvas event) w = [PreventDefault] ∧
     ModalState.draggedSubStep (World.ui w') = None ∧
     ∀ canvas' event',
       run (handleCanvasDrop props canvas' event') w' = (tt, w', [])).
Proof.
  intros w'. subst w'.
  destruct (drop_cases props w canvas event)
    as [[Hguard Hrun]|(Hedit & Htruthy & Hcanvas & Hcalls & Hcleared)].
  - unfold calls, after. rewrite Hrun. simpl. split_and!; [done|done|by intros []].
  - rewrite Hcalls. split_and!.
    + split; [done|]. intros [Hno|[Hno|Hno]]; [congruence|congruence|].
      rewrite Hno in Hcanvas. by destruct Hcanvas.
    + done.
    + intros _. split_and!; try done.
      intros canvas' event'. apply drop_without_drag. by rewrite Hcleared.
Qed.

(** ** What the guarded handlers leave alone *)













(** ** Sub-step ids *)





(** ** Confirming proposals, once more *)

Lemma handleProposalConfirm_subSteps (additions : Additions.t) w :
  Details.subSteps (buffer (after (handleProposalConfirm additions) w)) =
    result
      (forEach pushNewActionItem (Additions.newActionItems additions)
         (Details.subSteps (buffer w)
          ++ result (mapWithIndex newSubStepOfProposal 0
                       (Additions.newSubSteps additions)) w))
      (after (mapWithIndex newSubStepOfProposal 0 (Additions.newSubSteps additions)) w).
Proof.
  observe. unfold handleProposalConfirm. simpl.
  destruct (run (mapWithIndex newSubStepOfProposal 0 (Additions.newSubSteps additions)) w)
    as [[news w1] made1]. simpl.
  by destruct (run (forEach pushNewActionItem (Additions.newActionItems additions)
                      (Details.subSteps (ModalState.localDetails (World.ui w)) ++ news)) w1)
    as [[R w2] made2].
Qed.

Lemma grid_cells_are_apart (i j : nat) :
  i ≠ j →
  (300 ≤ Z.abs (Position.x (gridPosition i) - Position.x (gridPosition j)) ∨
   200 ≤ Z.abs (Position.y (gridPosition i) - Position.y (gridPosition j)))%Z.
Proof.
  intros Hij. unfold gridPosition. simpl.
  assert (Z.of_nat i ≠ Z.of_nat j) as Hne by lia.
  Z.to_euclidean_division_equations. lia.
Qed.

(** X15.  Two proposals confirmed together never land on the same cell:
    their sub-steps are at least 300 apart horizontally or 200 apart
    vertically. *)
Theorem confirmed_proposals_do_not_share_a_cell (additions : Additions.t) w (i j : nat) :
  i ≠ j →
  i < length (Additions.newSubSteps additions) →
  j < length (Additions.newSubSteps additions) →
  let confirmed :=
    Details.subSteps (buffer (after (handleProposalConfirm additions) w)) in
  let n := length (Details.subSteps (buffer w)) in
  ∃ a b,
    confirmed !! (n + i) = Some a ∧
    confirmed !! (n + j) = Some b ∧
    SubStep.position a = Some (gridPosition i) ∧
    SubStep.position b = Some (gridPosition j) ∧
    (300 ≤ Z.abs (Position.x (gridPosition i) - Position.x (gridPosition j)) ∨
     200 ≤ Z.abs (Position.y (gridPosition i) - Position.y (gridPosition j)))%Z.
Proof.
  intros Hij Hi Hj confirmed n. subst confirmed.
  rewrite handleProposalConfirm_subSteps.
  set (proposals := Additions.newSubSteps additions) in *.
  destruct (newSubSteps_layout proposals 0 w) as (_ & _ & Hlen & Hnews).
  set (news := result (mapWithIndex newSubStepOfProposal 0 proposals) w) in *.
  set (w1 := after (mapWithIndex newSubStepOfProposal 0 proposals) w) in *.
  destruct (forEach_push (Additions.newActionItems additions)
              (Details.subSteps (buffer w) ++ news) w1) as (_ & _ & _ & Hsteps).
  assert (Hat : ∀ k, k < length proposals →
            ∃ c, result (forEach pushNewActionItem (Additions.newActionItems additions)
                           (Details.subSteps (buffer w) ++ news)) w1 !! (n + k) = Some c ∧
                 SubStep.position c = Some (gridPosition k)).
  { intros k Hk. destruct (lookup_lt_is_Some_2 proposals k Hk) as [p Hp].
    destruct (Hnews k p Hp) as (ss & Hss & _ & _ & Hpos & _).
    destruct (Hsteps (n + k) ss) as (c & added & Hc & Hsame & _).
    { rewrite lookup_app_r by (subst n; lia).
      by replace (n + k - length (Details.subSteps (buffer w))) with k by (subst n; lia). }
    exists c. split; [done|].
    destruct Hsame as (_ & _ & _ & -> & _). by rewrite Hpos. }
  destruct (Hat i Hi) as (a & Ha & Hpa). destruct (Hat j Hj) as (b & Hb & Hpb).
  exists a, b. split_and!; try done. by apply grid_cells_are_apart.
Qed.

Lemma actionItemCount_app (l k : list SubStep.t) :
  actionItemCount (l ++ k) = actionItemCount l + actionItemCount k.
Proof.
  induction l as [|ss l IH]; [done|].
  simpl. rewrite !actionItemCount_cons, IH. lia.
Qed.

Lemma actionItemCount_insert (L : list SubStep.t) (i : nat) (target : SubStep.t)
    (ai : ActionItem.t) :
  L !! i = Some target →
  actionItemCount
    (<[i := SubStep.withActionItems target
              (default [] (SubStep.actionItems target) ++ [ai])]> L)
  = S (actionItemCount L).
Proof.
  revert i. induction L as [|ss L IH]; intros [|i] Hi; simpl in Hi; try done.
  - injection Hi as ->. simpl. rewrite !actionItemCount_cons. simpl.
    rewrite length_app. simpl. lia.
  - simpl. rewrite !actionItemCount_cons, (IH i Hi). lia.
Qed.

Lemma forEach_push_count (requests : list NewActionItem.t) : ∀ (L : list SubStep.t) w,
  actionItemCount (result (forEach pushNewActionItem requests L) w)
  = actionItemCount L
    + length (filter (λ r, is_Some (firstWithId (NewActionItem.targetSubStepId r) L))
                requests).
Proof.
  induction requests as [|r requests IH]; intros L w.
  - simpl. unfold result. simpl. lia.
  - destruct (pushNewActionItem_run L r w) as (_ & _ & Hstep).
    revert Hstep. unfold result. simpl.
    destruct (run (pushNewActionItem L r) w) as [[L1 w1] made1]. simpl.
    intros Hstep. specialize (IH L1 w1). revert IH. unfold result.
    destruct (run (forEach pushNewActionItem requests L1) w1) as [[R w2] made2]. simpl.
    intros ->. rewrite filter_cons.
    destruct (firstWithId (NewActionItem.targetSubStepId r) L) as [i|] eqn:Hfirst.
    + destruct Hstep as (target & ai & Hi & _ & _ & ->).
      rewrite decide_True by done. rewrite (actionItemCount_insert L i target ai Hi).
      simpl.
      rewrite (list_filter_iff _
                 (λ r, is_Some (firstWithId (NewActionItem.targetSubStepId r) L))); [lia|].
      intros r'. rewrite (firstWithId_ids _ _ L); [done|].
      rewrite list_fmap_insert. simpl.
      by rewrite list_insert_id by (by rewrite list_lookup_fmap, Hi).
    + subst L1. rewrite decide_False by (by intros [? ?]). lia.
Qed.

Lemma actionItemCount_blank (l : list SubStep.t) :
  (∀ i ss, l !! i = Some ss → SubStep.actionItems ss = Some []) →
  actionItemCount l = 0.
Proof.
  induction l as [|ss l IH]; intros Hall; [done|].
  rewrite actionItemCount_cons, (Hall 0 ss eq_refl), IH; [done|].
  intros i ss' Hi. by apply (Hall (S i)).
Qed.

(** X16.  [handleProposalConfirm] raises the displayed total of action
    items by the number of requests whose target id is the id of a sub-step
    of the combined list, never by more than the number of requests, and
    keeps the ids of the existing sub-steps in front. *)
Theorem confirm_counts_matched_requests (additions : Additions.t) w :
  let w' := after (handleProposalConfirm additions) w in
  let matched :=
    filter (λ r, is_Some (firstWithId (NewActionItem.targetSubStepId r)
                            (Details.subSteps (buffer w'))))
           (Additions.newActionItems additions) in
  actionItemTotal (buffer w') = actionItemTotal (buffer w) + length matched ∧
  length matched ≤ length (Additions.newActionItems additions) ∧
  subStepIds w `prefix_of` subStepIds w'.
Proof.
  intros w' matched. subst matched w'.
  rewrite !actionItemTotal_count. unfold subStepIds.
  rewrite handleProposalConfirm_subSteps.
  set (proposals := Additions.newSubSteps additions).
  destruct (newSubSteps_layout proposals 0 w) as (_ & _ & Hlen & Hnews).
  set (news := result (mapWithIndex newSubStepOfProposal 0 proposals) w) in *.
  set (w1 := after (mapWithIndex newSubStepOfProposal 0 proposals) w) in *.
  destruct (forEach_push (Additions.newActionItems additions)
              (Details.subSteps (buffer w) ++ news) w1) as (_ & _ & Hids & _).
  set (R := result (forEach pushNewActionItem (Additions.newActionItems additions)
                      (Details.subSteps (buffer w) ++ news)) w1) in *.
  assert (Hblank : actionItemCount news = 0).
  { apply actionItemCount_blank. intros i ss Hi.
    assert (Hlt : i < length proposals).
    { rewrite <- Hlen. by eapply lookup_lt_Some. }
    destruct (lookup_lt_is_Some_2 proposals i Hlt) as [p Hp].
    destruct (Hnews i p Hp) as (ss' & Hss' & _ & _ & _ & Hitems & _).
    congruence. }
  split_and!.
  - pose proof (forEach_push_count (Additions.newActionItems additions)
                  (Details.subSteps (buffer w) ++ news) w1) as Hcount.
    fold R in Hcount. rewrite Hcount, actionItemCount_app, Hblank.
    rewrite (list_filter_iff
               (λ r, is_Some (firstWithId (NewActionItem.targetSubStepId r)
                                (Details.subSteps (buffer w) ++ news)))
               (λ r, is_Some (firstWithId (NewActionItem.targetSubStepId r) R))); [lia|].
    intros r. by rewrite (firstWithId_ids _ R _ Hids).
  - apply length_filter.
  - rewrite Hids, fmap_app. by eexists.
Qed.

End MoreProperties.

(** * The further properties on the sample data *)

Section MoreWitnesses.
Import Sample MoreSamples.
#[local] Existing Instance Sample.schema.
#[local] Existing Instance Sample.host.

Lemma add_substep_then_remove_witness :
  Details.subSteps
    (buffer (after (handleRemoveSubStep (editing task) "substep_0" true)
               (after (handleAddSubStep (editing task)) (opened task))))
  = [design; build].
Proof.
  destruct (add_substep_then_remove (editing task) (opened task) eq_refl)
    as (_ & _ & _ & Hfresh).
  apply Hfresh. change (subStepIds (opened task)) with ["s1"; "s2"].
  rewrite !not_elem_of_cons. split_and!; [| |apply not_elem_of_nil];
    intros Heq; vm_compute in Heq; discriminate Heq.
Defined.

Lemma add_action_item_counts_witness :
  actionItemTotal (buffer (after (handleAddActionItem (editing task) "s2") (opened task)))
  = 3.
Proof.
  destruct (add_action_item_counts (editing task) (opened task) "s2" eq_refl)
    as (Htotal & _).
  rewrite Htotal. reflexivity.
Defined.

Lemma update_action_item_keeps_shape_witness :
  actionItemTotal
    (buffer (after (handleUpdateActionItem (editing task) "s1" "a2" complete)
               (opened task)))
  = 2 ∧
  ∃ ss' items' checked,
    Details.subSteps
      (buffer (after (handleUpdateActionItem (editing task) "s1" "a2" complete)
                 (opened task))) !! 0 = Some ss' ∧
    SubStep.actionItems ss' = Some items' ∧
    items' !! 0 = Some (item "a1" "sketch" true) ∧
    items' !! 1 = Some checked ∧
    ActionItem.completed checked = true ∧
    ActionItem.text checked = "review" ∧
    ActionItem.id checked = "a2".
Proof.
  destruct (update_action_item_keeps_shape (editing task) (opened task) "s1" "a2"
              complete eq_refl) as (Htotal & _ & _ & Hsteps).
  split; [rewrite Htotal; reflexivity|].
  destruct (Hsteps 0 design eq_refl) as (ss' & Hss' & _ & _ & Hmatched).
  destruct (Hmatched eq_refl) as (items' & Hitems' & _ & Heach).
  destruct (Heach 0 (item "a1" "sketch" true) eq_refl) as (kept & Hkept & Hsame & _).
  destruct (Heach 1 (item "a2" "review" false) eq_refl)
    as (checked & Hchecked & _ & Hmerged).
  destruct (Hmerged eq_refl) as (Hid & Htext & Hcompleted & _).
  exists ss', items', checked. split; [exact Hss'|]. split; [exact Hitems'|].
  split; [rewrite Hkept; f_equal; apply Hsame; discriminate|].
  split; [exact Hchecked|]. split; [exact Hcompleted|]. split; [exact Htext|exact Hid].
Defined.

Lemma removed_action_item_is_gone_witness :
  actionItemTotal
    (buffer (after (handleRemoveActionItem (editing task) "s1" "a1" true) (opened task)))
  ≤ actionItemTotal details ∧
  buffer (after (handleRemoveActionItem (editing task) "s1" "a1" false) (opened task))
  = details.
Proof.
  destruct (removed_action_item_is_gone (editing task) (opened task) "s1" "a1" eq_refl)
    as (_ & _ & Htotal & _ & Hdeclined).
  split; [exact Htotal|exact Hdeclined].
Defined.

Lemma remove_attachment_filters_witness :
  Details.attachments
    (buffer (after (handleRemoveAttachment (editing taskWithFiles) "f1")
               (opened taskWithFiles)))
  = Some [brief].
Proof.
  destruct (remove_attachment_filters (editing taskWithFiles) (opened taskWithFiles)
              "f1" eq_refl) as (Hkept & _).
  rewrite Hkept. reflexivity.
Defined.

Lemma attachment_add_then_remove_witness :
  let later := after (handleAddSubStep (editing taskWithFiles)) (opened taskWithFiles) in
  Details.attachments
    (buffer (after (handleRemoveAttachment (editing taskWithFiles) "attach_1")
               (after (reader_onload
                         {| PendingRead.file := photo;
                            PendingRead.attachments := Some [logo; brief] |}
                         (Some "data:image/png;base64,CC"))
                      later)))
  = Some [logo; brief].
Proof.
  destruct (attachment_add_then_remove (editing taskWithFiles) (opened taskWithFiles)
              (after (handleAddSubStep (editing taskWithFiles)) (opened taskWithFiles))
              photo "data:image/png;base64,CC" eq_refl ltac:(discriminate))
    as (_ & _ & _ & _ & _ & Hfresh).
  apply Hfresh. change (attachmentIds (opened taskWithFiles)) with ["f1"; "f2"].
  rewrite !not_elem_of_cons. split_and!; [| |apply not_elem_of_nil];
    intros Heq; vm_compute in Heq; discriminate Heq.
Defined.

Lemma drop_is_ignored_exactly_witness :
  ModalState.draggedSubStep
    (World.ui (after (handleCanvasDrop (editing task) (Some canvas) drop) dragging))
    = None ∧
  calls (handleCanvasDrop (editing task) (Some canvas) drop) (opened task) = [].
Proof.
  split.
  - destruct (drop_is_ignored_exactly (editing task) dragging (Some canvas) drop)
      as (_ & _ & Haccepted).
    apply Haccepted. vm_compute. intros Heq. discriminate Heq.
  - apply (proj1 (drop_is_ignored_exactly (editing task) (opened task)
                    (Some canvas) drop)).
    right. left. reflexivity.
Defined.


Lemma local_updates_compose_witness :
  buffer (after (updateLocalDetails (DetailsUpdate.ofSubSteps [build]) ;;
                 updateLocalDetails (DetailsUpdate.ofSubSteps [build])) (opened task))
  = buffer (after (updateLocalDetails (DetailsUpdate.ofSubSteps [build])) (opened task)).
Proof.
  apply (proj1 (local_updates_compose (DetailsUpdate.ofSubSteps [build]) [] []
                  [] cover (opened task))).
Defined.

Lemma reset_is_not_saved_witness :
  autosaveTrace
    [Rendered bareTask (ModalState.localDetails (initialState bareTask)); Passed 1500]
    None = [].
Proof.
  destruct (reset_is_not_saved bareTask (opened bareTask) None 1500)
    as (_ & _ & _ & Hquiet).
  exact Hquiet.
Defined.

Lemma autosave_saves_only_rendered_buffers_witness :
  ∃ t d,
    Rendered t d ∈ [Rendered task detailsEdited; Passed 1000] ∧
    OnUpdateTask "t1" detailsEdited = OnUpdateTask (ProjectTask.id t) d ∧
    JSON_stringify d ≠ JSON_stringify (extendedDetails t).
Proof.
  apply (proj1 (autosave_saves_only_rendered_buffers
                  [Rendered task detailsEdited; Passed 1000])).
  vm_compute. constructor.
Defined.

Lemma autosave_is_debounced_witness :
  autosaveTrace
    [Rendered task detailsEdited; Passed 200; Rendered task details; Passed 1000] None
  = [].
Proof.
  destruct (autosave_is_debounced task detailsEdited details None 200 1000)
    as (Hlatest & _).
  - unfold AUTOSAVE_DELAY. lia.
  - unfold AUTOSAVE_DELAY. lia.
  - rewrite Hlatest. reflexivity.
Defined.

Lemma flattened_entries_belong_witness :
  shipped ∈ flattenedActionItems detailsReleased.
Proof.
  apply (proj1 (flattened_entries_belong detailsReleased shipped)). split.
  - right. left.
  - left.
Defined.

Lemma recent_activity_is_short_witness :
  ActionItem.completed (FlatItem.actionItem shipped) = true ∧
  recentActivity defaultDetails = [].
Proof.
  split.
  - destruct (recent_activity_is_short detailsReleased) as (_ & _ & Hlisted & _).
    apply (Hlisted shipped). vm_compute. constructor.
  - destruct (recent_activity_is_short defaultDetails) as (_ & _ & _ & _ & Hnone).
    apply Hnone. reflexivity.
Defined.

Lemma confirmed_proposals_do_not_share_a_cell_witness :
  ∃ a b,
    Details.subSteps (buffer (after (handleProposalConfirm additions) (opened task)))
      !! 2 = Some a ∧
    Details.subSteps (buffer (after (handleProposalConfirm additions) (opened task)))
      !! 5 = Some b ∧
    SubStep.position a = Some (gridPosition 0) ∧
    SubStep.position b = Some (gridPosition 3) ∧
    (300 ≤ Z.abs (Position.x (gridPosition 0) - Position.x (gridPosition 3)) ∨
     200 ≤ Z.abs (Position.y (gridPosition 0) - Position.y (gridPosition 3)))%Z.
Proof.
  apply (confirmed_proposals_do_not_share_a_cell additions (opened task) 0 3).
  - lia.
  - simpl. lia.
  - simpl. lia.
Defined.

Lemma confirm_counts_matched_requests_witness :
  actionItemTotal (buffer (after (handleProposalConfirm additions) (opened task))) = 5.
Proof.
  destruct (confirm_counts_matched_requests additions (opened task)) as (Htotal & _).
  rewrite Htotal. reflexivity.
Defined.



End MoreWitnesses.

(** * The read that completes late *)

Section StaleRead.
Import Sample MoreSamples.
#[local] Existing Instance Sample.schema.
#[local] Existing Instance Sample.host.

(** C5.  The size limit is as claimed, the append is not.  [reader.onload]
    writes [localDetails.attachments] of the render in which the file was
    selected, not the attachments the buffer holds when the read completes
    (every other write to the buffer goes through [prev]).  With the
    attachments [logo; brief] in the buffer and [photo] selected:
    - removing [logo] before the read completes is undone by the read, the
      buffer ends with [logo; brief; photo];
    - selecting [memo] as well before either read completes loses the one
      that completes first, the buffer ends with [logo; brief; memo]. *)
Theorem attachment_read_overwrites_later_changes :
  let props := editing taskWithFiles in
  let w0 := opened taskWithFiles in
  let selected := after (handleAttachmentChange props (Some photo)) w0 in
  let pendingPhoto :=
    {| PendingRead.file := photo; PendingRead.attachments := Some [logo; brief] |} in
  let pendingMemo :=
    {| PendingRead.file := memo; PendingRead.attachments := Some [logo; brief] |} in
  result (handleAttachmentChange props (Some photo)) w0 = Some pendingPhoto ∧
  (let removed := after (handleRemoveAttachment props "f1") selected in
   let loaded :=
     after (reader_onload pendingPhoto (Some "data:image/png;base64,CC")) removed in
   Details.attachments (buffer removed) = Some [brief] ∧
   Details.attachments (buffer loaded) = Some [logo; brief; photoAs "attach_0"]) ∧
  (let both := after (handleAttachmentChange props (Some memo)) selected in
   let first :=
     after (reader_onload pendingPhoto (Some "data:image/png;base64,CC")) both in
   let second :=
     after (reader_onload pendingMemo (Some "data:text/plain;base64,DD")) first in
   result (handleAttachmentChange props (Some memo)) selected = Some pendingMemo ∧
   Details.attachments (buffer first) = Some [logo; brief; photoAs "attach_0"] ∧
   Details.attachments (buffer second) = Some [logo; brief; memoAs "attach_1"]).
Proof. vm_compute. repeat split. Qed.

End StaleRead.
